(** * pypprof: the net/http/pprof-style handlers of [pypprof.net_http] and
      the FastAPI binding of [pypprof.fastapi]

    The handlers are short Python functions that glue together services
    living outside the two modules ([gc], [mprofile], [zprofile],
    [pypprof.builder], [pypprof.thread_profiler], [sys.argv] and the
    request handler object [self]).  They are embedded as trees of
    external calls; the pure parts (the heap aggregation loop, [str.join],
    [str.encode]) are embedded as functions. *)

From Stdlib Require Import List ListDec ZArith NArith Bool Ascii String Lia.
Import ListNotations.
Local Open Scope Z_scope.

(* ================================================================== *)
(** ** Python values used by the handlers *)

Module Py.

(** Exceptions that can escape a handler.  [LibraryError] stands for an
    exception raised inside an external call; its class name is kept. *)
Inductive exn : Type :=
| KeyError
| TypeError (msg : string)
| IndexError
| UnicodeEncodeError
| LibraryError (cls : string).

Definition is_KeyError (e : exn) : bool :=
  match e with KeyError => true | _ => false end.

Inductive result (A : Type) : Type :=
| Ok (a : A)
| Exc (e : exn).
Arguments Ok {A} a.
Arguments Exc {A} e.

Definition rbind {A B} (r : result A) (f : A -> result B) : result B :=
  match r with
  | Ok a => f a
  | Exc e => Exc e
  end.

(** A [str] is a sequence of code points, [bytes] a sequence of octets. *)
Definition str := list N.
Definition bytes := list N.

Definition is_surrogate (c : N) : bool :=
  ((0xD800 <=? c) && (c <=? 0xDFFF))%N.

(** [str.encode("utf-8")] on one code point, with the default [strict]
    error handler: lone surrogates are refused. *)
Definition utf8_char (c : N) : result bytes :=
  (if c <? 0x80 then Ok [c]
   else if c <? 0x800 then
     Ok [N.lor 0xC0 (N.shiftr c 6); N.lor 0x80 (N.land c 0x3F)]
   else if is_surrogate c then Exc UnicodeEncodeError
   else if c <? 0x10000 then
     Ok [N.lor 0xE0 (N.shiftr c 12);
         N.lor 0x80 (N.land (N.shiftr c 6) 0x3F);
         N.lor 0x80 (N.land c 0x3F)]
   else
     Ok [N.lor 0xF0 (N.shiftr c 18);
         N.lor 0x80 (N.land (N.shiftr c 12) 0x3F);
         N.lor 0x80 (N.land (N.shiftr c 6) 0x3F);
         N.lor 0x80 (N.land c 0x3F)])%N.

Fixpoint encode_utf8 (s : str) : result bytes :=
  match s with
  | [] => Ok []
  | c :: s' =>
      rbind (utf8_char c) (fun b =>
      rbind (encode_utf8 s') (fun bs => Ok (b ++ bs)))
  end.

(** [sep.join(items)]: the items in order, [sep] between neighbours. *)
Fixpoint join {A} (sep : list A) (items : list (list A)) : list A :=
  match items with
  | [] => []
  | x :: rest =>
      match rest with
      | [] => x
      | _ :: _ => x ++ sep ++ join sep rest
      end
  end.

(** The ASCII text of a literal. *)
Fixpoint literal (s : string) : str :=
  match s with
  | EmptyString => []
  | String a s' => N_of_ascii a :: literal s'
  end.

(** The two sequence types the aggregation loop can meet as a dict value.
    Item assignment is what tells them apart. *)
Inductive pyseq : Type :=
| PyTuple (items : list Z)
| PyList (items : list Z).

Definition seq_items (s : pyseq) : list Z :=
  match s with PyTuple l | PyList l => l end.

Definition seq_getitem (s : pyseq) (i : nat) : result Z :=
  match nth_error (seq_items s) i with
  | Some x => Ok x
  | None => Exc IndexError
  end.

Fixpoint list_set (l : list Z) (i : nat) (v : Z) : option (list Z) :=
  match l, i with
  | [], _ => None
  | _ :: l', O => Some (v :: l')
  | x :: l', S i' => option_map (cons x) (list_set l' i' v)
  end.

Definition seq_setitem (s : pyseq) (i : nat) (v : Z) : result pyseq :=
  match s with
  | PyTuple _ =>
      Exc (TypeError "'tuple' object does not support item assignment")
  | PyList l =>
      match list_set l i v with
      | Some l' => Ok (PyList l')
      | None => Exc IndexError
      end
  end.

(** A [dict]: insertion-ordered, one entry per key. *)
Section Dict.
Context {K V : Type} (K_eq_dec : forall a b : K, {a = b} + {a <> b}).

Definition dict := list (K * V).

Fixpoint dict_get (d : dict) (k : K) : option V :=
  match d with
  | [] => None
  | (k', v) :: d' => if K_eq_dec k k' then Some v else dict_get d' k
  end.

(** [d[k] = v]: an existing key keeps its place, a new one goes last. *)
Fixpoint dict_set (d : dict) (k : K) (v : V) : dict :=
  match d with
  | [] => [(k, v)]
  | (k', v') :: d' =>
      if K_eq_dec k k' then (k, v) :: d' else (k', v') :: dict_set d' k v
  end.

Definition dict_keys (d : dict) : list K := map fst d.
End Dict.

End Py.
Import Py.

(* ================================================================== *)
(** ** The heap snapshot as [mprofile] hands it over *)

Record Frame : Type := mkFrame {
  name : str;
  filename : str;
  firstlineno : Z;
  lineno : Z
}.

Record Statistic : Type := mkStatistic {
  traceback : list Frame;
  count : Z;
  size : Z
}.

Record Snapshot : Type := mkSnapshot {
  statistics : string -> list Statistic;
  sample_rate : Z
}.

(** The dict key of [build_heap_pprof]: a tuple of 4-tuples. *)
Definition frame_key : Type := str * str * Z * Z.
Definition trace : Type := list frame_key.

Definition frame_key_of (frame : Frame) : frame_key :=
  (name frame, filename frame, firstlineno frame, lineno frame).

Definition trace_of (stat : Statistic) : trace :=
  map frame_key_of (traceback stat).

Definition str_eq_dec : forall a b : str, {a = b} + {a <> b} :=
  list_eq_dec N.eq_dec.

Definition frame_key_eq_dec (a b : frame_key) : {a = b} + {a <> b}.
Proof.
  decide equality; try apply Z.eq_dec.
  decide equality; try apply Z.eq_dec.
  decide equality; apply str_eq_dec.
Defined.

Definition trace_eq_dec : forall a b : trace, {a = b} + {a <> b} :=
  list_eq_dec frame_key_eq_dec.

Definition samples_dict : Type := @dict trace pyseq.

(* ================================================================== *)
(** ** Statements over the local [samples] dict

    A statement either completes or raises; in both cases the dict is
    left as the statement had it at that point, which is what an
    [except] clause gets to see. *)

Definition stmt : Type := samples_dict -> option exn * samples_dict.

Definition seq_stmt (s1 s2 : stmt) : stmt :=
  fun d =>
    match s1 d with
    | (None, d') => s2 d'
    | (Some e, d') => (Some e, d')
    end.

Definition try_except (body : stmt) (catches : exn -> bool) (handler : stmt)
  : stmt :=
  fun d =>
    match body d with
    | (None, d') => (None, d')
    | (Some e, d') => if catches e then handler d' else (Some e, d')
    end.

(** [samples[key][i] += delta]: subscript the dict, read item [i], add,
    store item [i] back into the same object. *)
Definition aug_assign_item (key : trace) (i : nat) (delta : Z) : stmt :=
  fun d =>
    match dict_get trace_eq_dec d key with
    | None => (Some KeyError, d)
    | Some obj =>
        match seq_getitem obj i with
        | Exc e => (Some e, d)
        | Ok x =>
            match seq_setitem obj i (x + delta) with
            | Exc e => (Some e, d)
            | Ok obj' => (None, dict_set trace_eq_dec d key obj')
            end
        end
    end.

(** [samples[key] = value] *)
Definition assign_item (key : trace) (value : pyseq) : stmt :=
  fun d => (None, dict_set trace_eq_dec d key value).

Fixpoint for_each {A} (body : A -> stmt) (items : list A) : stmt :=
  match items with
  | [] => fun d => (None, d)
  | x :: rest => seq_stmt (body x) (for_each body rest)
  end.

(** The body of the [for stat in ...] loop of [build_heap_pprof]. *)
Definition aggregate_stat (stat : Statistic) : stmt :=
  let trace := trace_of stat in
  try_except
    (seq_stmt (aug_assign_item trace 0 (count stat))
              (aug_assign_item trace 1 (size stat)))
    is_KeyError
    (assign_item trace (PyTuple [count stat; size stat])).

(** The loop, started on [samples = {}]. *)
Definition aggregate (stats : list Statistic) : result samples_dict :=
  match for_each aggregate_stat stats [] with
  | (None, samples) => Ok samples
  | (Some e, _) => Exc e
  end.

(** What the specification asks of the aggregation: group by trace, sum
    count and size within a group; groups in order of first appearance. *)
Fixpoint merge_sample (agg : list (trace * (Z * Z))) (t : trace) (c s : Z)
  : list (trace * (Z * Z)) :=
  match agg with
  | [] => [(t, (c, s))]
  | (t', (c', s')) :: agg' =>
      if trace_eq_dec t t' then (t', (c' + c, s' + s)) :: agg'
      else (t', (c', s')) :: merge_sample agg' t c s
  end.

Definition aggregate_spec (stats : list Statistic) : list (trace * (Z * Z)) :=
  fold_left (fun agg stat => merge_sample agg (trace_of stat) (count stat) (size stat))
            stats [].

(** How an aggregated sample of the specification reads as a dict entry. *)
Definition as_entry (e : trace * (Z * Z)) : trace * pyseq :=
  (fst e, PyTuple [fst (snd e); snd (snd e)]).

(* ================================================================== *)
(** ** External calls and handler programs *)

Definition handler_ref := nat.   (* the request handler object [self] *)
Definition profiler_ref := nat.  (* a [CPUProfiler] instance *)
Definition builder_ref := nat.   (* a [Builder] instance *)

Inductive call : Type :=
| gc_collect
| mprofile_is_tracing
| mprofile_take_snapshot
| send_error (self : handler_ref) (code : Z) (message : string)
| CPUProfiler_new
| CPUProfiler_profile (p : profiler_ref) (duration_secs : Z)
| wall_profiler_register_handler
| wall_profiler_profile (duration_secs : Z)
| thread_profiler_take_snapshot
| sys_argv
| Builder_new
| Builder_populate_profile (b : builder_ref) (samples : samples_dict)
    (profile_type unit_name : string) (period period_count : Z)
| Builder_emit (b : builder_ref).

Definition answer (c : call) : Type :=
  match c with
  | gc_collect => Z
  | mprofile_is_tracing => bool
  | mprofile_take_snapshot => Snapshot
  | send_error _ _ _ => unit
  | CPUProfiler_new => profiler_ref
  | CPUProfiler_profile _ _ => bytes
  | wall_profiler_register_handler => unit
  | wall_profiler_profile _ => bytes
  | thread_profiler_take_snapshot => bytes
  | sys_argv => list str
  | Builder_new => builder_ref
  | Builder_populate_profile _ _ _ _ _ _ => unit
  | Builder_emit _ => bytes
  end.

Inductive prog (R : Type) : Type :=
| Return (r : R)
| Raise (e : exn)
| Call (c : call) (k : answer c -> prog R).
Arguments Return {R} r.
Arguments Raise {R} e.
Arguments Call {R} c k.

Fixpoint bind {A B} (p : prog A) (f : A -> prog B) : prog B :=
  match p with
  | Return a => f a
  | Raise e => Raise e
  | Call c k => Call c (fun x => bind (k x) f)
  end.

Definition perform (c : call) : prog (answer c) := Call c Return.

Definition lift {A} (r : result A) : prog A :=
  match r with
  | Ok a => Return a
  | Exc e => Raise e
  end.

Declare Scope prog_scope.
Delimit Scope prog_scope with prog.
Notation "x <- p ;; q" := (bind p (fun x => q))
  (at level 61, p at next level, right associativity) : prog_scope.
Notation "p ;; q" := (bind p (fun _ => q))
  (at level 61, right associativity) : prog_scope.
Local Open Scope prog_scope.

(** Argument binding of a call: a parameter without default must be
    supplied, one with a default falls back to it. *)
Definition required {A} (fname pname : string) (arg : option A) : prog A :=
  match arg with
  | Some a => Return a
  | None =>
      Raise (TypeError (fname ++ "() missing 1 required positional argument: '"
                          ++ pname ++ "'"))
  end.

Definition defaulting {A} (default : A) (arg : option A) : A :=
  match arg with
  | Some a => a
  | None => default
  end.

(* ================================================================== *)
(** ** [pypprof/net_http.py] *)

Module net_http.

(** [_wall_profiler = WallProfiler()] is created once at import; the two
    calls on it are [wall_profiler_register_handler] and
    [wall_profiler_profile]. *)

Definition start_pprof : prog unit :=
  perform wall_profiler_register_handler.

Definition profile (self : option handler_ref) (duration_secs : option Z)
  : prog bytes :=
  required "profile" "self" self ;;
  let duration_secs := defaulting 30 duration_secs in
  cpu_profiler <- perform CPUProfiler_new ;;
  pprof <- perform (CPUProfiler_profile cpu_profiler duration_secs) ;;
  Return pprof.

Definition wall (self : option handler_ref) (duration_secs : option Z)
  : prog bytes :=
  required "wall" "self" self ;;
  let duration_secs := defaulting 30 duration_secs in
  pprof <- perform (wall_profiler_profile duration_secs) ;;
  Return pprof.

Definition build_heap_pprof (snap : Snapshot) : prog bytes :=
  profile_builder <- perform Builder_new ;;
  samples <- lift (aggregate (statistics snap "traceback")) ;;
  perform (Builder_populate_profile profile_builder samples
             "HEAP" "bytes" (sample_rate snap) 1) ;;
  perform (Builder_emit profile_builder).

(** [has_mprofile] is fixed at import by whether [import mprofile]
    succeeded.  The result is [None] when [send_error] was returned. *)
Definition heap (has_mprofile : bool)
  (self : option handler_ref) (run_gc : option bool) : prog (option bytes) :=
  self <- required "heap" "self" self ;;
  let run_gc := defaulting false run_gc in
  (if run_gc then perform gc_collect ;; Return tt else Return tt) ;;
  if negb has_mprofile then
    perform (send_error self 412
               "mprofile must be installed to enable heap profiling") ;;
    Return None
  else
    tracing <- perform mprofile_is_tracing ;;
    if negb tracing then
      perform (send_error self 412 "Heap profiling is not enabled") ;;
      Return None
    else
      snap <- perform mprofile_take_snapshot ;;
      pprof <- build_heap_pprof snap ;;
      Return (Some pprof).

Definition thread (self : option handler_ref) (debug : option bool)
  : prog bytes :=
  required "thread" "self" self ;;
  let debug := defaulting false debug in
  pprof <- perform thread_profiler_take_snapshot ;;
  Return pprof.

Definition NUL : str := [0%N].

Definition cmdline (self : option handler_ref) : prog bytes :=
  required "cmdline" "self" self ;;
  argv <- perform sys_argv ;;
  let body := join NUL argv in
  lift (encode_utf8 body).

End net_http.

(* ================================================================== *)
(** ** [pypprof/fastapi.py] *)

Module fastapi.

Definition Request := nat.

Record Response : Type := mkResponse {
  content : bytes;
  headers : list (string * string)
}.

Definition dquote : string := String (ascii_of_nat 34) EmptyString.

Definition handle_profile (request : Request) : prog Response :=
  p <- net_http.profile None None ;;
  let headers :=
    [("Content-Type", "application/octet-stream");
     ("Content-Disposition",
      "attachment; filename=" ++ dquote ++ "profile" ++ dquote)]%string in
  Return (mkResponse p headers).

Definition App := list (string * (Request -> prog Response)).

Definition register_pprof_handlers (app : App) : App :=
  app ++ [("/debug/profile"%string, handle_profile)].

End fastapi.

(* ================================================================== *)
(** ** Running a handler against its surroundings *)

(** The surroundings answer every call, possibly by raising, and may
    change while doing so.  [enter] is what a call does to the world when
    it starts, [respond] what it does and answers when it finishes. *)
Record env (W : Type) : Type := mkEnv {
  enter : call -> W -> W;
  respond : forall c : call, W -> result (answer c) * W
}.
Arguments enter {W} e c w.
Arguments respond {W} e c w.

Definition do_call {W} (E : env W) (c : call) (w : W)
  : result (answer c) * W :=
  respond E c (enter E c w).

Record outcome (W R : Type) : Type := mkOutcome {
  returned : result R;
  world : W;
  calls : list call
}.
Arguments mkOutcome {W R} returned world calls.
Arguments returned {W R} o.
Arguments world {W R} o.
Arguments calls {W R} o.

(** One handler invocation run to its end on one thread. *)
Fixpoint run {W R} (E : env W) (p : prog R) (w : W) : outcome W R :=
  match p with
  | Return r => mkOutcome (Ok r) w []
  | Raise e => mkOutcome (Exc e) w []
  | Call c k =>
      match do_call E c w with
      | (Ok a, w') =>
          let o := run E (k a) w' in
          mkOutcome (returned o) (world o) (c :: calls o)
      | (Exc e, w') => mkOutcome (Exc e) w' [c]
      end
  end.

(** Several invocations on threads of their own.  A thread that has
    started a call is [Blocked] in it until the call answers. *)
Inductive thread_state (R : Type) : Type :=
| Ready (p : prog R)
| Blocked (c : call) (k : answer c -> prog R)
| Finished (r : result R).
Arguments Ready {R} p.
Arguments Blocked {R} c k.
Arguments Finished {R} r.

Definition step_thread {W R} (E : env W) (t : thread_state R) (w : W)
  : thread_state R * W :=
  match t with
  | Ready (Return r) => (Finished (Ok r), w)
  | Ready (Raise e) => (Finished (Exc e), w)
  | Ready (Call c k) => (Blocked c k, enter E c w)
  | Blocked c k =>
      match respond E c w with
      | (Ok a, w') => (Ready (k a), w')
      | (Exc e, w') => (Finished (Exc e), w')
      end
  | Finished r => (Finished r, w)
  end.

Definition config (W R : Type) : Type := list (thread_state R) * W.

Fixpoint step_nth {W R} (E : env W) (i : nat) (ts : list (thread_state R))
  (w : W) : config W R :=
  match ts, i with
  | [], _ => ([], w)
  | t :: ts', O => let (t', w') := step_thread E t w in (t' :: ts', w')
  | t :: ts', S i' => let (ts'', w') := step_nth E i' ts' w in (t :: ts'', w')
  end.

(** [schedule] lists which thread moves next. *)
Fixpoint exec {W R} (E : env W) (schedule : list nat) (cfg : config W R)
  : config W R :=
  match schedule with
  | [] => cfg
  | i :: rest => exec E rest (step_nth E i (fst cfg) (snd cfg))
  end.

Inductive kind : Type := cpu | wall_clock.

(** The thread is inside the sampling call of that kind. *)
Definition sampling {R} (k : kind) (t : thread_state R) : bool :=
  match t, k with
  | Blocked (CPUProfiler_profile _ _) _, cpu => true
  | Blocked (wall_profiler_profile _) _, wall_clock => true
  | _, _ => false
  end.

(** The specification's [start(kind, durationSeconds)] is the [profile]
    handler for [cpu] and the [wall] handler for the wall clock. *)
Definition start (k : kind) (self : handler_ref) (duration_secs : Z)
  : prog bytes :=
  match k with
  | cpu => net_http.profile (Some self) (Some duration_secs)
  | wall_clock => net_http.wall (Some self) (Some duration_secs)
  end.

(* ================================================================== *)
(** ** A reference process

    One concrete choice of surroundings, used to run the handlers on
    concrete inputs: libraries that answer every call and keep count. *)

Module Reference.

Record World : Type := mkWorld {
  argv : list str;
  tracing : bool;
  snapshot : Snapshot;
  gc_runs : nat;
  registrations : nat;
  sessions : nat;
  next_ref : nat
}.

Definition pprof_bytes : bytes := [0x1f; 0x8b]%N.

Definition on_enter (c : call) (w : World) : World :=
  match c with
  | CPUProfiler_profile _ _ | wall_profiler_profile _ =>
      mkWorld (argv w) (tracing w) (snapshot w) (gc_runs w)
              (registrations w) (S (sessions w)) (next_ref w)
  | _ => w
  end.

Definition fresh_ref (w : World) : World :=
  mkWorld (argv w) (tracing w) (snapshot w) (gc_runs w)
          (registrations w) (sessions w) (S (next_ref w)).

Definition on_respond (c : call) (w : World) : result (answer c) * World :=
  match c return result (answer c) * World with
  | gc_collect =>
      (Ok 0,
       mkWorld (argv w) (tracing w) (snapshot w) (S (gc_runs w))
               (registrations w) (sessions w) (next_ref w))
  | mprofile_is_tracing => (Ok (tracing w), w)
  | mprofile_take_snapshot =>
      if tracing w then (Ok (snapshot w), w)
      else (Exc (LibraryError "RuntimeError"), w)
  | send_error _ _ _ => (Ok tt, w)
  | CPUProfiler_new => (Ok (next_ref w), fresh_ref w)
  | CPUProfiler_profile _ _ | wall_profiler_profile _ =>
      (Ok pprof_bytes,
       mkWorld (argv w) (tracing w) (snapshot w) (gc_runs w)
               (registrations w) (pred (sessions w)) (next_ref w))
  | wall_profiler_register_handler =>
      (Ok tt,
       mkWorld (argv w) (tracing w) (snapshot w) (gc_runs w)
               (S (registrations w)) (sessions w) (next_ref w))
  | thread_profiler_take_snapshot => (Ok pprof_bytes, w)
  | sys_argv => (Ok (argv w), w)
  | Builder_new => (Ok (next_ref w), fresh_ref w)
  | Builder_populate_profile _ _ _ _ _ _ => (Ok tt, w)
  | Builder_emit _ => (Ok pprof_bytes, w)
  end.

Definition process : env World := mkEnv World on_enter on_respond.

Definition frame_at (line : Z) : Frame :=
  mkFrame (literal "f") (literal "a.py") 1 line.

Definition stat_at (line c s : Z) : Statistic :=
  mkStatistic [frame_at line] c s.

Definition snapshot_of (stats : list Statistic) : Snapshot :=
  mkSnapshot (fun _ => stats) 524288.

Definition boot (args : list str) (is_tracing : bool)
  (stats : list Statistic) : World :=
  mkWorld args is_tracing (snapshot_of stats) 0 0 0 0.

Definition idle : World :=
  boot [literal "prog"; literal "-x"; literal "1"] false [].

End Reference.

(* ================================================================== *)
(** ** Vocabulary of the statements *)

(** The dict entry a statistic gives rise to on its own. *)
Definition entry_of (stat : Statistic) : trace * pyseq :=
  (trace_of stat, PyTuple [count stat; size stat]).

Definition tuple_item_error : exn :=
  TypeError "'tuple' object does not support item assignment".

(** No code point of the text is a surrogate. *)
Definition encodable (s : str) : bool :=
  forallb (fun c => negb (is_surrogate c)) s.

Definition total_length (items : list bytes) : nat :=
  fold_right (fun b n => (List.length b + n)%nat) 0%nat items.

(** The world in which the checks of [heap] run: the one after the
    collection, when one was asked for and came back. *)
Definition world_at_checks {W} (E : env W) (run_gc : option bool) (w : W)
  : option W :=
  if defaulting false run_gc then
    match do_call E gc_collect w with
    | (Ok _, w') => Some w'
    | (Exc _, _) => None
    end
  else Some w.

Definition gc_calls (run_gc : option bool) : list call :=
  if defaulting false run_gc then [gc_collect] else [].

Definition precondition_failed : Z := 412.

(** The errors the specification names, as they would reach a caller. *)
Definition InvalidDuration : exn := LibraryError "InvalidDuration".
Definition AlreadyProfiling : exn := LibraryError "AlreadyProfiling".
Definition UnsupportedInitialization : exn :=
  LibraryError "UnsupportedInitialization".

(** A start was turned down for its duration before anything was
    sampled. *)
Definition duration_rejected {W} (before : W) (o : outcome W bytes) : Prop :=
  returned o = Exc InvalidDuration /\ calls o = [] /\ world o = before.

(** Thread [i] of the pool ended with that result. *)
Definition finished_with {W R} (cfg : config W R) (i : nat) (r : result R)
  : Prop :=
  nth_error (fst cfg) i = Some (Finished r).

Definition in_sampling_call {W R} (k : kind) (cfg : config W R) (i : nat)
  : bool :=
  match nth_error (fst cfg) i with
  | Some t => sampling k t
  | None => false
  end.

(** Running [start_pprof] so many times in a row. *)
Fixpoint start_pprof_times {W} (E : env W) (n : nat) (w : W)
  : list (result unit) * W :=
  match n with
  | O => ([], w)
  | S n' =>
      let o := run E net_http.start_pprof w in
      let (rs, w') := start_pprof_times E n' (world o) in
      (returned o :: rs, w')
  end.

(** Whom a call goes to. *)
Inductive service : Type :=
| gc_module
| mprofile_module
| request_handler
| CPUProfiler_class
| wall_profiler_object
| thread_profiler_module
| sys_module
| Builder_class.

Definition service_of (c : call) : service :=
  match c with
  | gc_collect => gc_module
  | mprofile_is_tracing | mprofile_take_snapshot => mprofile_module
  | send_error _ _ _ => request_handler
  | CPUProfiler_new | CPUProfiler_profile _ _ => CPUProfiler_class
  | wall_profiler_register_handler | wall_profiler_profile _ =>
      wall_profiler_object
  | thread_profiler_take_snapshot => thread_profiler_module
  | sys_argv => sys_module
  | Builder_new | Builder_populate_profile _ _ _ _ _ _ | Builder_emit _ =>
      Builder_class
  end.

Definition service_eq_dec (a b : service) : {a = b} + {a <> b}.
Proof. decide equality. Defined.

(** The calls of a run that went to one service, in order. *)
Definition calls_to (s : service) (l : list call) : list call :=
  filter (fun c => if service_eq_dec (service_of c) s then true else false) l.

Definition final_call (l : list call) : option call :=
  last (map Some l) None.

(** [b.split(sep)] for a one-byte separator: what a reader of the
    command line does with it. *)
Fixpoint split_at (sep : N) (b : bytes) : list bytes :=
  match b with
  | [] => [[]]
  | x :: b' =>
      if (x =? sep)%N then [] :: split_at sep b'
      else
        match split_at sep b' with
        | [] => [[x]]
        | piece :: pieces => (x :: piece) :: pieces
        end
  end.

Definition ascii_text (s : str) : bool := forallb (fun c => (c <? 0x80)%N) s.

Definition nul_free (s : str) : bool :=
  forallb (fun c => negb (c =? 0)%N) s.

(** The reference process with a tracer that is on when asked and gone
    when the snapshot is taken. *)
Definition tracer_stops : env Reference.World :=
  mkEnv Reference.World Reference.on_enter
    (fun c w =>
       match c as c0 return result (answer c0) * Reference.World with
       | mprofile_is_tracing => (Ok true, w)
       | mprofile_take_snapshot => (Exc (LibraryError "RuntimeError"), w)
       | c0 => Reference.on_respond c0 w
       end).

Arguments do_call : simpl never.
Arguments aggregate : simpl never.

(** Answer the calls of a handler one after the other from the
    hypotheses about the surroundings. *)
Ltac answer_calls :=
  repeat (simpl;
          match goal with
          | H : do_call _ _ _ = _ |- _ => rewrite H
          end);
  simpl.

(* ================================================================== *)
(** ** Dict and aggregation lemmas *)

Lemma dict_get_absent (d : samples_dict) (k : trace) :
  ~ In k (dict_keys d) -> dict_get trace_eq_dec d k = None.
Proof.
  induction d as [|[k' v] d IH]; simpl; intros Hnot.
  - reflexivity.
  - destruct (trace_eq_dec k k') as [->|Hne].
    + exfalso. apply Hnot. now left.
    + apply IH. intros Hin. apply Hnot. now right.
Qed.

Lemma dict_set_absent (d : samples_dict) (k : trace) (v : pyseq) :
  ~ In k (dict_keys d) -> dict_set trace_eq_dec d k v = d ++ [(k, v)].
Proof.
  induction d as [|[k' v'] d IH]; simpl; intros Hnot.
  - reflexivity.
  - destruct (trace_eq_dec k k') as [->|Hne].
    + exfalso. apply Hnot. now left.
    + f_equal. apply IH. intros Hin. apply Hnot. now right.
Qed.

Lemma dict_keys_entries (stats : list Statistic) :
  dict_keys (map entry_of stats) = map trace_of stats.
Proof.
  unfold dict_keys. rewrite map_map. reflexivity.
Qed.

Lemma dict_get_entry (seen : list Statistic) (stat : Statistic) :
  NoDup (map trace_of seen) -> In stat seen ->
  dict_get trace_eq_dec (map entry_of seen) (trace_of stat) =
  Some (PyTuple [count stat; size stat]).
Proof.
  induction seen as [|s seen IH]; simpl; intros Hnd Hin.
  - contradiction.
  - inversion Hnd as [|? ? Hfresh Hnd']; subst.
    destruct (trace_eq_dec (trace_of stat) (trace_of s)) as [Heq|Hne].
    + destruct Hin as [->|Hin]; [reflexivity|].
      exfalso. apply Hfresh. rewrite <- Heq. now apply in_map.
    + destruct Hin as [->|Hin]; [congruence|]. now apply IH.
Qed.

Lemma dict_get_present (seen : list Statistic) (t : trace) :
  In t (map trace_of seen) ->
  exists c s, dict_get trace_eq_dec (map entry_of seen) t = Some (PyTuple [c; s]).
Proof.
  induction seen as [|st seen IH]; simpl; intros Hin.
  - contradiction.
  - destruct (trace_eq_dec t (trace_of st)) as [_|Hne].
    + eauto.
    + destruct Hin as [Heq|Hin]; [congruence|]. now apply IH.
Qed.

Lemma NoDup_traces_snoc (seen : list Statistic) (stat : Statistic) :
  NoDup (map trace_of seen) ->
  ~ In (trace_of stat) (map trace_of seen) ->
  NoDup (map trace_of (seen ++ [stat])).
Proof.
  intros Hseen Hnew. rewrite map_app. simpl.
  pose proof (Add_app (trace_of stat) (map trace_of seen) []) as Hadd.
  rewrite app_nil_r in Hadd.
  apply (NoDup_Add Hadd). split; assumption.
Qed.

(** A trace not met before: [KeyError] is caught and the entry appended. *)
Lemma aggregate_stat_new (seen : list Statistic) (stat : Statistic) :
  ~ In (trace_of stat) (map trace_of seen) ->
  aggregate_stat stat (map entry_of seen) =
  (None, map entry_of (seen ++ [stat])).
Proof.
  intros Hnew. rewrite <- dict_keys_entries in Hnew.
  unfold aggregate_stat, try_except, seq_stmt, aug_assign_item, assign_item.
  rewrite (dict_get_absent _ _ Hnew). simpl.
  rewrite (dict_set_absent _ _ _ Hnew), map_app. reflexivity.
Qed.

(** A trace met before: the stored value is a tuple, the item store is
    refused, and [TypeError] is not caught by [except KeyError]. *)
Lemma aggregate_stat_again (seen : list Statistic) (stat : Statistic) :
  In (trace_of stat) (map trace_of seen) ->
  aggregate_stat stat (map entry_of seen) =
  (Some tuple_item_error, map entry_of seen).
Proof.
  intros Hin. destruct (dict_get_present _ _ Hin) as (c & s & Hget).
  unfold aggregate_stat, try_except, seq_stmt, aug_assign_item.
  rewrite Hget. reflexivity.
Qed.

Lemma for_each_distinct (stats seen : list Statistic) :
  NoDup (map trace_of (seen ++ stats)) ->
  for_each aggregate_stat stats (map entry_of seen) =
  (None, map entry_of (seen ++ stats)).
Proof.
  revert seen. induction stats as [|st stats IH]; intros seen Hnd; simpl.
  - now rewrite app_nil_r.
  - unfold seq_stmt. rewrite aggregate_stat_new.
    + rewrite IH; rewrite <- app_assoc; [reflexivity|exact Hnd].
    + rewrite map_app in Hnd. simpl in Hnd.
      apply NoDup_remove_2 in Hnd. intros Hin. apply Hnd.
      apply in_or_app. now left.
Qed.

Lemma for_each_repeated (stats seen : list Statistic) :
  NoDup (map trace_of seen) ->
  ~ NoDup (map trace_of (seen ++ stats)) ->
  fst (for_each aggregate_stat stats (map entry_of seen)) =
  Some tuple_item_error.
Proof.
  revert seen. induction stats as [|st stats IH]; intros seen Hseen Hdup; simpl.
  - rewrite app_nil_r in Hdup. contradiction.
  - unfold seq_stmt.
    destruct (in_dec trace_eq_dec (trace_of st) (map trace_of seen)) as [Hin|Hnew].
    + now rewrite aggregate_stat_again.
    + rewrite aggregate_stat_new by assumption.
      apply IH.
      * now apply NoDup_traces_snoc.
      * now rewrite <- app_assoc.
Qed.

Lemma aggregate_distinct (stats : list Statistic) :
  NoDup (map trace_of stats) -> aggregate stats = Ok (map entry_of stats).
Proof.
  intros Hnd. unfold aggregate.
  pose proof (for_each_distinct stats [] Hnd) as H. simpl in H.
  now rewrite H.
Qed.

Lemma aggregate_repeated (stats : list Statistic) :
  ~ NoDup (map trace_of stats) -> aggregate stats = Exc tuple_item_error.
Proof.
  intros Hdup. unfold aggregate.
  pose proof (for_each_repeated stats [] (NoDup_nil _) Hdup) as H.
  simpl in H.
  destruct (for_each aggregate_stat stats []) as [[e|] d]; simpl in H;
    congruence.
Qed.

(** On a snapshot without repeated traces the loop computes what the
    specification's aggregation asks for. *)
Lemma aggregate_spec_distinct (stats seen : list Statistic) :
  NoDup (map trace_of (seen ++ stats)) ->
  map as_entry
    (fold_left (fun agg stat =>
                  merge_sample agg (trace_of stat) (count stat) (size stat))
               stats
               (map (fun st => (trace_of st, (count st, size st))) seen)) =
  map entry_of (seen ++ stats).
Proof.
  revert seen. induction stats as [|st stats IH]; intros seen Hnd; simpl.
  - rewrite app_nil_r, map_map. reflexivity.
  - assert (Hnew : ~ In (trace_of st) (map trace_of seen)).
    { rewrite map_app in Hnd. simpl in Hnd. apply NoDup_remove_2 in Hnd.
      intros Hin. apply Hnd. apply in_or_app. now left. }
    assert (Hmerge :
      merge_sample (map (fun s => (trace_of s, (count s, size s))) seen)
                   (trace_of st) (count st) (size st) =
      map (fun s => (trace_of s, (count s, size s))) (seen ++ [st])).
    { clear - Hnew. induction seen as [|s seen IHs]; simpl in *.
      - reflexivity.
      - destruct (trace_eq_dec (trace_of st) (trace_of s)) as [Heq|Hne].
        + exfalso. apply Hnew. left. congruence.
        + f_equal. apply IHs. intros Hin. apply Hnew. now right. }
    rewrite Hmerge, IH; rewrite <- app_assoc; [reflexivity|exact Hnd].
Qed.

Lemma aggregate_refines_spec (stats : list Statistic) :
  NoDup (map trace_of stats) ->
  aggregate stats = Ok (map as_entry (aggregate_spec stats)).
Proof.
  intros Hnd. rewrite (aggregate_distinct _ Hnd). f_equal.
  symmetry. exact (aggregate_spec_distinct stats [] Hnd).
Qed.

(** In a snapshot without repeated traces every statistic is found under
    its own trace with its own count and size. *)
Lemma aggregate_keeps_entries (stats : list Statistic) (stat : Statistic) :
  NoDup (map trace_of stats) -> In stat stats ->
  exists samples,
    aggregate stats = Ok samples /\
    List.length samples = List.length stats /\
    dict_get trace_eq_dec samples (trace_of stat) =
    Some (PyTuple [count stat; size stat]).
Proof.
  intros Hnd Hin. exists (map entry_of stats). split; [|split].
  - now apply aggregate_distinct.
  - apply length_map.
  - now apply dict_get_entry.
Qed.

(** The loop never adds anything up: whether it runs to its end or
    raises, the dict then holds the statistics handled so far, each under
    its own trace with its own count and size. *)
Lemma for_each_never_merges (stats seen : list Statistic) :
  NoDup (map trace_of seen) ->
  exists handled,
    snd (for_each aggregate_stat stats (map entry_of seen)) =
    map entry_of (seen ++ handled) /\
    NoDup (map trace_of (seen ++ handled)) /\
    exists rest, stats = handled ++ rest.
Proof.
  revert seen. induction stats as [|st stats IH]; intros seen Hseen.
  - exists []. rewrite app_nil_r. simpl. split; [reflexivity|].
    split; [exact Hseen|now exists []].
  - simpl. unfold seq_stmt.
    destruct (in_dec trace_eq_dec (trace_of st) (map trace_of seen))
      as [Hin|Hnew].
    + rewrite aggregate_stat_again by assumption.
      exists []. rewrite app_nil_r. simpl. split; [reflexivity|].
      split; [exact Hseen|now exists (st :: stats)].
    + rewrite aggregate_stat_new by assumption.
      assert (Hseen' : NoDup (map trace_of (seen ++ [st])))
        by now apply NoDup_traces_snoc.
      destruct (IH _ Hseen') as (handled & Hd & Hnd & rest & ->).
      exists (st :: handled). rewrite <- app_assoc in Hd, Hnd. simpl in Hd, Hnd.
      split; [exact Hd|]. split; [exact Hnd|now exists rest].
Qed.

(** C1, as the code has it: two statistics of one snapshot with the same
    trace do not merge.  The second one finds the entry, reads its count,
    and the store into the tuple raises [TypeError], which
    [except KeyError] lets through; the specification's aggregation gives
    one entry with the counts and the sizes added. *)
Theorem aggregate_same_trace_raises (T : list Frame) (c1 s1 c2 s2 : Z) :
  let a := mkStatistic T c1 s1 in
  let b := mkStatistic T c2 s2 in
  aggregate [a; b] = Exc tuple_item_error /\
  map as_entry (aggregate_spec [a; b]) =
  [(trace_of a, PyTuple [c1 + c2; s1 + s2])].
Proof.
  intros a b. split.
  - apply aggregate_repeated. simpl. intros Hnd.
    inversion Hnd as [|? ? Hfresh _]; subst. apply Hfresh. now left.
  - unfold aggregate_spec. simpl.
    destruct (trace_eq_dec (trace_of b) (trace_of a)) as [_|Hne].
    + reflexivity.
    + exfalso. now apply Hne.
Qed.

(** The merge law of the specification at its own numbers. *)
Example aggregate_3_100_2_50 :
  let T := [Reference.frame_at 7] in
  aggregate [mkStatistic T 3 100; mkStatistic T 2 50] = Exc tuple_item_error /\
  aggregate_spec [mkStatistic T 3 100; mkStatistic T 2 50] =
  [(map frame_key_of T, (5, 150))].
Proof. split; reflexivity. Qed.

Lemma frame_key_of_injective (f g : Frame) :
  frame_key_of f = frame_key_of g -> f = g.
Proof.
  destruct f, g. unfold frame_key_of. simpl. intros H.
  injection H as -> -> -> ->. reflexivity.
Qed.

Lemma trace_of_injective (a b : Statistic) :
  trace_of a = trace_of b -> traceback a = traceback b.
Proof.
  unfold trace_of. generalize (traceback a) (traceback b).
  induction l as [|f l IH]; intros [|g l'] H; simpl in H;
    try discriminate; [reflexivity|].
  assert (Hfg : frame_key_of f = frame_key_of g) by congruence.
  assert (Hrest : map frame_key_of l = map frame_key_of l') by congruence.
  f_equal; [now apply frame_key_of_injective|now apply IH].
Qed.

(** C8: two statistics whose tracebacks differ, in whatever field of
    whatever frame, get different dict keys and are kept as two entries,
    each under its own trace with its own count and size, in the order
    they came. *)
Theorem aggregate_distinct_traces_kept (a b : Statistic) :
  traceback a <> traceback b ->
  trace_of a <> trace_of b /\
  aggregate [a; b] =
  Ok [(trace_of a, PyTuple [count a; size a]);
      (trace_of b, PyTuple [count b; size b])].
Proof.
  intros Hdiff.
  assert (Hne : trace_of a <> trace_of b).
  { intros Heq. apply Hdiff. now apply trace_of_injective. }
  split; [exact Hne|].
  apply (aggregate_distinct [a; b]). simpl.
  constructor.
  - intros [Heq|[]]. now apply Hne.
  - constructor; [intros []|constructor].
Qed.

(** Same function, file and first line, another current line. *)
Lemma aggregate_distinct_traces_kept_witness :
  let a := Reference.stat_at 10 3 100 in
  let b := Reference.stat_at 11 3 100 in
  traceback a <> traceback b /\
  trace_of a <> trace_of b /\
  aggregate [a; b] =
  Ok [(trace_of a, PyTuple [3; 100]); (trace_of b, PyTuple [3; 100])].
Proof.
  assert (Hdiff : traceback (Reference.stat_at 10 3 100) <>
                  traceback (Reference.stat_at 11 3 100))
    by (vm_compute; discriminate).
  split; [exact Hdiff|].
  exact (aggregate_distinct_traces_kept _ _ Hdiff).
Defined.

(* ================================================================== *)
(** ** Running programs *)

Lemma run_bind {W A B} (E : env W) (p : prog A) (f : A -> prog B) (w : W) :
  run E (bind p f) w =
  let o := run E p w in
  match returned o with
  | Ok a =>
      let o' := run E (f a) (world o) in
      mkOutcome (returned o') (world o') (calls o ++ calls o')
  | Exc e => mkOutcome (Exc e) (world o) (calls o)
  end.
Proof.
  revert w. induction p as [a|e|c k IH]; intros w; simpl.
  - now destruct (run E (f a) w).
  - reflexivity.
  - destruct (do_call E c w) as [[x|e] w']; simpl; [|reflexivity].
    rewrite IH. simpl. now destruct (returned (run E (k x) w')).
Qed.

Lemma run_perform {W} (E : env W) (c : call) (w : W) :
  run E (perform c) w =
  mkOutcome (fst (do_call E c w)) (snd (do_call E c w)) [c].
Proof.
  unfold perform. simpl. now destruct (do_call E c w) as [[x|e] w'].
Qed.

(** A call that answers, followed by the rest of the handler. *)
Lemma run_call_ok {W R} (E : env W) (c : call) (k : answer c -> prog R)
  (w w' : W) (a : answer c) :
  do_call E c w = (Ok a, w') ->
  run E (Call c k) w =
  mkOutcome (returned (run E (k a) w')) (world (run E (k a) w'))
            (c :: calls (run E (k a) w')).
Proof. intros H. simpl. now rewrite H. Qed.

Lemma run_call_exc {W R} (E : env W) (c : call) (k : answer c -> prog R)
  (w w' : W) (e : exn) :
  do_call E c w = (Exc e, w') ->
  run E (Call c k) w = mkOutcome (Exc e) w' [c].
Proof. intros H. simpl. now rewrite H. Qed.

(** One thread run alone goes through the same calls as [run]. *)
Lemma exec_alone {W R} (E : env W) (p : prog R) (w : W) :
  exists n,
    exec E (repeat 0%nat n) ([Ready p], w) =
    ([Finished (returned (run E p w))], world (run E p w)).
Proof.
  revert w. induction p as [r|e|c k IH]; intros w.
  - exists 1%nat. reflexivity.
  - exists 1%nat. reflexivity.
  - simpl run. unfold do_call.
    destruct (respond E c (enter E c w)) as [[a|e] w'] eqn:Hresp.
    + destruct (IH a w') as [n Hn]. exists (S (S n)).
      simpl. rewrite Hresp. simpl. exact Hn.
    + exists 2%nat. simpl. now rewrite Hresp.
Qed.

(** Stepping one thread leaves the others as they were. *)
Lemma step_nth_other {W R} (E : env W) (i j : nat)
  (ts : list (thread_state R)) (w : W) :
  i <> j -> nth_error (fst (step_nth E i ts w)) j = nth_error ts j.
Proof.
  revert i j. induction ts as [|t ts IH]; intros i j Hij.
  - now destruct i.
  - destruct i as [|i]; cbn [step_nth].
    + destruct (step_thread E t w) as [t' w']. cbn [fst].
      destruct j as [|j]; [now exfalso|reflexivity].
    + specialize (IH i). destruct (step_nth E i ts w) as [ts' w'].
      cbn [fst] in *. destruct j as [|j]; [reflexivity|].
      cbn [nth_error]. apply IH. congruence.
Qed.

Lemma step_nth_same {W R} (E : env W) (i : nat)
  (ts : list (thread_state R)) (w : W) (t : thread_state R) :
  nth_error ts i = Some t ->
  nth_error (fst (step_nth E i ts w)) i = Some (fst (step_thread E t w)) /\
  snd (step_nth E i ts w) = snd (step_thread E t w).
Proof.
  revert i. induction ts as [|t0 ts IH]; intros i Hi.
  - now destruct i.
  - destruct i as [|i]; cbn [step_nth nth_error] in *.
    + injection Hi as ->. now destruct (step_thread E t w).
    + specialize (IH i Hi).
      now destruct (step_nth E i ts w) as [ts' w'].
Qed.

(* ================================================================== *)
(** ** The FastAPI route *)

(** With [self] supplied and no duration, [profile] samples for 30
    seconds. *)
Lemma profile_default_duration (self : handler_ref) :
  net_http.profile (Some self) None = net_http.profile (Some self) (Some 30).
Proof. reflexivity. Qed.

(** C7, as the code has it: the route calls [profile()] without an
    argument for its first parameter [self], so argument binding raises
    [TypeError] before any profiler is made; no response is built. *)
Theorem handle_profile_raises_TypeError {W} (E : env W) (w : W)
  (request : fastapi.Request) :
  run E (fastapi.handle_profile request) w =
  mkOutcome
    (Exc (TypeError "profile() missing 1 required positional argument: 'self'"))
    w [].
Proof. reflexivity. Qed.

(* ================================================================== *)
(** ** The thread snapshot *)

Lemma thread_takes_snapshot {W} (E : env W) (w : W) (self : handler_ref)
  (debug : option bool) :
  run E (net_http.thread (Some self) debug) w =
  mkOutcome (fst (do_call E thread_profiler_take_snapshot w))
            (snd (do_call E thread_profiler_take_snapshot w))
            [thread_profiler_take_snapshot].
Proof.
  simpl. now destruct (do_call E thread_profiler_take_snapshot w) as [[b|e] w'].
Qed.

(** C10: whatever is passed for [debug], and whether it is passed at all,
    the thread endpoint makes the same calls and gives the same result in
    the same surroundings. *)
Theorem thread_ignores_debug {W} (E : env W) (w : W)
  (self : option handler_ref) (debug1 debug2 : option bool) :
  run E (net_http.thread self debug1) w = run E (net_http.thread self debug2) w.
Proof. reflexivity. Qed.

(* ================================================================== *)
(** ** The heap snapshot *)

(** Once the collection has come back, [heap] with [run_gc] goes on as
    [heap] without it. *)
Lemma heap_after_collection {W} (E : env W) (w w1 : W) (n : Z)
  (has_mprofile : bool) (self : handler_ref) :
  do_call E gc_collect w = (Ok n, w1) ->
  let o' := run E (net_http.heap has_mprofile (Some self) (Some false)) w1 in
  run E (net_http.heap has_mprofile (Some self) (Some true)) w =
  mkOutcome (returned o') (world o') (gc_collect :: calls o').
Proof. intros Hgc. answer_calls. reflexivity. Qed.

(** C9: with [run_gc] true the first call of [heap] is [gc.collect()],
    whatever [has_mprofile] is; once it has come back the handler goes on
    exactly as without [run_gc] from the world the collection left, and so
    the collection has happened also when the answer is the 412 error,
    for a missing [mprofile] as for tracing switched off. *)
Theorem heap_collects_before_checks {W} (E : env W) (w : W)
  (has_mprofile : bool) (self : handler_ref) :
  let o := run E (net_http.heap has_mprofile (Some self) (Some true)) w in
  (exists rest, calls o = gc_collect :: rest) /\
  (forall n w1,
     do_call E gc_collect w = (Ok n, w1) ->
     let o' := run E (net_http.heap has_mprofile (Some self) (Some false)) w1 in
     o = mkOutcome (returned o') (world o') (gc_collect :: calls o')) /\
  (forall n w1 w2,
     has_mprofile = false ->
     do_call E gc_collect w = (Ok n, w1) ->
     do_call E (send_error self 412
                  "mprofile must be installed to enable heap profiling") w1 =
     (Ok tt, w2) ->
     o = mkOutcome (Ok None) w2
           [gc_collect;
            send_error self 412
              "mprofile must be installed to enable heap profiling"]) /\
  (forall n w1 w2 w3,
     has_mprofile = true ->
     do_call E gc_collect w = (Ok n, w1) ->
     do_call E mprofile_is_tracing w1 = (Ok false, w2) ->
     do_call E (send_error self 412 "Heap profiling is not enabled") w2 =
     (Ok tt, w3) ->
     o = mkOutcome (Ok None) w3
           [gc_collect; mprofile_is_tracing;
            send_error self 412 "Heap profiling is not enabled"]).
Proof.
  intros o. subst o. split; [|split; [|split]].
  - simpl. destruct (do_call E gc_collect w) as [[n|e] w1]; simpl; eauto.
  - intros n w1 Hgc. exact (heap_after_collection E w w1 n _ self Hgc).
  - intros n w1 w2 -> Hgc Herr. answer_calls. reflexivity.
  - intros n w1 w2 w3 -> Hgc Htr Herr. answer_calls. reflexivity.
Qed.

Lemma heap_collects_before_checks_witness :
  let w := Reference.boot [] false [] in
  let o := run Reference.process (net_http.heap true (Some 0%nat) (Some true)) w in
  returned o = Ok None /\
  Reference.gc_runs (world o) = 1%nat /\
  calls o = [gc_collect; mprofile_is_tracing;
             send_error 0%nat 412 "Heap profiling is not enabled"].
Proof.
  pose proof (heap_collects_before_checks Reference.process
                (Reference.boot [] false []) true 0%nat) as H.
  cbv zeta in H. destruct H as (_ & _ & _ & H).
  cbv zeta.
  pose proof (H 0 _ _ _ eq_refl eq_refl eq_refl eq_refl) as Hrun.
  split; [|split].
  - exact (f_equal returned Hrun).
  - exact (f_equal (fun o => Reference.gc_runs (world o)) Hrun).
  - exact (f_equal calls Hrun).
Defined.

(** With the tracer on, [heap] answers with whatever [build_heap_pprof]
    makes of the snapshot, be it bytes or an exception. *)
Lemma heap_tracing_builds {W} (E : env W) (w w1 w2 : W) (self : handler_ref)
  (snap : Snapshot) :
  do_call E mprofile_is_tracing w = (Ok true, w1) ->
  do_call E mprofile_take_snapshot w1 = (Ok snap, w2) ->
  let built := run E (net_http.build_heap_pprof snap) w2 in
  run E (net_http.heap true (Some self) None) w =
  mkOutcome
    (match returned built with Ok pprof => Ok (Some pprof) | Exc e => Exc e end)
    (world built)
    (mprofile_is_tracing :: mprofile_take_snapshot :: calls built).
Proof.
  intros Htr Hsnap built. subst built.
  change (net_http.heap true (Some self) None)
    with (tracing <- perform mprofile_is_tracing ;;
          if negb tracing then
            perform (send_error self 412 "Heap profiling is not enabled") ;;
            Return None
          else
            snap <- perform mprofile_take_snapshot ;;
            pprof <- net_http.build_heap_pprof snap ;;
            Return (Some pprof)).
  cbn [bind perform]. rewrite (run_call_ok _ _ _ _ _ _ Htr).
  cbn [bind negb]. rewrite (run_call_ok _ _ _ _ _ _ Hsnap).
  cbn [bind]. rewrite run_bind. cbv zeta.
  destruct (run E (net_http.build_heap_pprof snap) w2) as [[pprof|e] w3 log];
    cbn; [now rewrite app_nil_r|reflexivity].
Qed.


(** The heap endpoint on a tracing process whose snapshot holds one
    traceback twice: the builder is made, then the request raises. *)
Example heap_repeated_trace_raises :
  let o := run Reference.process (net_http.heap true (Some 0%nat) None)
             (Reference.boot [] true
                [Reference.stat_at 7 3 100; Reference.stat_at 7 2 50]) in
  returned o = Exc tuple_item_error /\
  calls o = [mprofile_is_tracing; mprofile_take_snapshot; Builder_new].
Proof. split; reflexivity. Qed.

(** What holds of the checks of [heap]: a heap request (with or without
    a collection first) is answered with the 412 "precondition failed"
    error, and neither an exception nor a profile, when [mprofile] is not
    installed and when its tracer is off; no snapshot is taken and the
    builder is not touched.  With the tracer on and no trace coming twice
    in the snapshot, the statistics are aggregated, handed to the builder
    with type HEAP, unit bytes and the snapshot's sample rate, and the
    handler returns the bytes the builder emits. *)
Theorem heap_precondition {W} (E : env W) (w w0 : W) (self : handler_ref)
  (run_gc : option bool) :
  world_at_checks E run_gc w = Some w0 ->
  (forall w1,
     do_call E (send_error self precondition_failed
                  "mprofile must be installed to enable heap profiling") w0 =
     (Ok tt, w1) ->
     run E (net_http.heap false (Some self) run_gc) w =
     mkOutcome (Ok None) w1
       (gc_calls run_gc ++
        [send_error self precondition_failed
           "mprofile must be installed to enable heap profiling"])) /\
  (forall w1 w2,
     do_call E mprofile_is_tracing w0 = (Ok false, w1) ->
     do_call E (send_error self precondition_failed
                  "Heap profiling is not enabled") w1 = (Ok tt, w2) ->
     run E (net_http.heap true (Some self) run_gc) w =
     mkOutcome (Ok None) w2
       (gc_calls run_gc ++
        [mprofile_is_tracing;
         send_error self precondition_failed "Heap profiling is not enabled"])) /\
  (forall w1 w2 w3 w4 w5 snap b pprof,
     do_call E mprofile_is_tracing w0 = (Ok true, w1) ->
     do_call E mprofile_take_snapshot w1 = (Ok snap, w2) ->
     NoDup (map trace_of (statistics snap "traceback")) ->
     do_call E Builder_new w2 = (Ok b, w3) ->
     do_call E (Builder_populate_profile b
                  (map entry_of (statistics snap "traceback"))
                  "HEAP" "bytes" (sample_rate snap) 1) w3 = (Ok tt, w4) ->
     do_call E (Builder_emit b) w4 = (Ok pprof, w5) ->
     run E (net_http.heap true (Some self) run_gc) w =
     mkOutcome (Ok (Some pprof)) w5
       (gc_calls run_gc ++
        [mprofile_is_tracing; mprofile_take_snapshot; Builder_new;
         Builder_populate_profile b
           (map entry_of (statistics snap "traceback"))
           "HEAP" "bytes" (sample_rate snap) 1;
         Builder_emit b])).
Proof.
  unfold world_at_checks, gc_calls, precondition_failed. intros Hgc.
  split; [|split].
  - intros w1 Herr.
    destruct run_gc as [[|]|]; simpl in Hgc |- *.
    + destruct (do_call E gc_collect w) as [[n|e] w'] eqn:Hcollect;
        [|discriminate].
      injection Hgc as ->. answer_calls. reflexivity.
    + injection Hgc as ->. answer_calls. reflexivity.
    + injection Hgc as ->. answer_calls. reflexivity.
  - intros w1 w2 Htr Herr.
    destruct run_gc as [[|]|]; simpl in Hgc |- *.
    + destruct (do_call E gc_collect w) as [[n|e] w'] eqn:Hcollect;
        [|discriminate].
      injection Hgc as ->. answer_calls. reflexivity.
    + injection Hgc as ->. answer_calls. reflexivity.
    + injection Hgc as ->. answer_calls. reflexivity.
  - intros w1 w2 w3 w4 w5 snap b pprof Htr Hsnap Hnd Hnew Hpop Hemit.
    assert (Hbuilt :
      run E (net_http.build_heap_pprof snap) w2 =
      mkOutcome (Ok pprof) w5
        [Builder_new;
         Builder_populate_profile b
           (map entry_of (statistics snap "traceback"))
           "HEAP" "bytes" (sample_rate snap) 1;
         Builder_emit b]).
    { unfold net_http.build_heap_pprof.
      rewrite (aggregate_distinct _ Hnd). answer_calls. reflexivity. }
    destruct run_gc as [[|]|]; simpl in Hgc.
    + destruct (do_call E gc_collect w) as [[n|e] w'] eqn:Hcollect;
        [|discriminate].
      injection Hgc as ->.
      rewrite (heap_after_collection E w w0 n true self Hcollect). cbv zeta.
      change (net_http.heap true (Some self) (Some false))
        with (net_http.heap true (Some self) None).
      rewrite (heap_tracing_builds E _ _ _ self snap Htr Hsnap).
      cbv zeta. rewrite Hbuilt. reflexivity.
    + injection Hgc as ->.
      change (net_http.heap true (Some self) (Some false))
        with (net_http.heap true (Some self) None).
      rewrite (heap_tracing_builds E _ _ _ self snap Htr Hsnap).
      cbv zeta. rewrite Hbuilt. reflexivity.
    + injection Hgc as ->.
      rewrite (heap_tracing_builds E _ _ _ self snap Htr Hsnap).
      cbv zeta. rewrite Hbuilt. reflexivity.
Qed.

Lemma heap_precondition_witness :
  let not_tracing := Reference.boot [] false [] in
  let two_stats := [Reference.stat_at 10 3 100; Reference.stat_at 11 1 8] in
  let is_tracing := Reference.boot [] true two_stats in
  returned (run Reference.process (net_http.heap false (Some 0%nat) None)
              not_tracing) = Ok None /\
  calls (run Reference.process (net_http.heap true (Some 0%nat) None)
           not_tracing) =
  [mprofile_is_tracing;
   send_error 0%nat 412 "Heap profiling is not enabled"] /\
  returned (run Reference.process (net_http.heap true (Some 0%nat) (Some true))
              is_tracing) = Ok (Some Reference.pprof_bytes).
Proof.
  cbv zeta. split; [|split].
  - pose proof (heap_precondition Reference.process
                  (Reference.boot [] false []) _ 0%nat None eq_refl) as H.
    destruct H as (H & _ & _).
    exact (f_equal returned (H _ eq_refl)).
  - pose proof (heap_precondition Reference.process
                  (Reference.boot [] false []) _ 0%nat None eq_refl) as H.
    destruct H as (_ & H & _).
    exact (f_equal calls (H _ _ eq_refl eq_refl)).
  - pose proof (heap_precondition Reference.process
                  (Reference.boot [] true
                     [Reference.stat_at 10 3 100; Reference.stat_at 11 1 8])
                  _ 0%nat (Some true) eq_refl) as H.
    destruct H as (_ & _ & H).
    assert (Hnd : NoDup (map trace_of
                  [Reference.stat_at 10 3 100; Reference.stat_at 11 1 8])).
    { constructor.
      - simpl. intros [Heq|[]]. discriminate Heq.
      - constructor; [intros []|constructor]. }
    exact (f_equal returned
             (H _ _ _ _ _ _ _ _ eq_refl eq_refl Hnd eq_refl eq_refl eq_refl)).
Defined.



(* ================================================================== *)
(** ** CPU and wall-clock profiles *)

Lemma run_never_silent {W R} (E : env W) (c : call) (k : answer c -> prog R)
  (w : W) :
  calls (run E (Call c k) w) <> [].
Proof.
  simpl. destruct (do_call E c w) as [[a|e] w']; simpl; discriminate.
Qed.

(** C3, as stated, fails: started for 0 seconds, the CPU handler makes a
    profiler and has it sample for 0 seconds; started for -1 seconds, the
    wall handler has the shared wall profiler sample for -1 seconds.
    Neither is turned down for its duration. *)
Lemma start_nonpositive_duration_samples :
  let o0 := run Reference.process (start cpu 0%nat 0) Reference.idle in
  let o1 := run Reference.process (start wall_clock 0%nat (-1)) Reference.idle in
  (returned o0 = Ok Reference.pprof_bytes /\
   calls o0 = [CPUProfiler_new; CPUProfiler_profile 0%nat 0] /\
   ~ duration_rejected Reference.idle o0) /\
  (returned o1 = Ok Reference.pprof_bytes /\
   calls o1 = [wall_profiler_profile (-1)] /\
   ~ duration_rejected Reference.idle o1).
Proof.
  cbv zeta. repeat split; intros (Hret & _); discriminate Hret.
Qed.

(** C3, amended: the handlers do not look at the duration.  Whatever it
    is, the CPU handler makes a [CPUProfiler] and hands the duration on to
    its [profile], the wall handler hands it on to the shared wall
    profiler's [profile]; the answer or exception of that call is the
    handler's, and no start comes back without the profiler having been
    called. *)
Theorem start_hands_duration_on {W} (E : env W) (w : W) (self : handler_ref)
  (duration_secs : Z) :
  (forall p w1 r w2,
     do_call E CPUProfiler_new w = (Ok p, w1) ->
     do_call E (CPUProfiler_profile p duration_secs) w1 = (r, w2) ->
     run E (start cpu self duration_secs) w =
     mkOutcome r w2 [CPUProfiler_new; CPUProfiler_profile p duration_secs]) /\
  (forall r w1,
     do_call E (wall_profiler_profile duration_secs) w = (r, w1) ->
     run E (start wall_clock self duration_secs) w =
     mkOutcome r w1 [wall_profiler_profile duration_secs]) /\
  ~ duration_rejected w (run E (start cpu self duration_secs) w) /\
  ~ duration_rejected w (run E (start wall_clock self duration_secs) w).
Proof.
  split; [|split; [|split]].
  - intros p w1 r w2 Hnew Hprof. answer_calls. now destruct r.
  - intros r w1 Hprof. answer_calls. now destruct r.
  - intros (_ & Hcalls & _). revert Hcalls. apply run_never_silent.
  - intros (_ & Hcalls & _). revert Hcalls. apply run_never_silent.
Qed.

Lemma start_hands_duration_on_witness :
  calls (run Reference.process (start cpu 7%nat (-1)) Reference.idle) =
  [CPUProfiler_new; CPUProfiler_profile 0%nat (-1)] /\
  calls (run Reference.process (start wall_clock 7%nat 0) Reference.idle) =
  [wall_profiler_profile 0].
Proof.
  split.
  - destruct (start_hands_duration_on Reference.process Reference.idle
                7%nat (-1)) as (H & _).
    exact (f_equal calls (H _ _ _ _ eq_refl eq_refl)).
  - destruct (start_hands_duration_on Reference.process Reference.idle
                7%nat 0) as (_ & H & _).
    exact (f_equal calls (H _ _ eq_refl)).
Defined.

(** C5, as stated, fails: [start_pprof] run twice in a row registers the
    handler twice and comes back normally both times. *)
Lemma start_pprof_twice_registers_twice :
  let (rs, w) := start_pprof_times Reference.process 2 Reference.idle in
  rs = [Ok tt; Ok tt] /\
  Reference.registrations w = 2%nat /\
  nth_error rs 1 <> Some (Exc UnsupportedInitialization).
Proof. repeat split. discriminate. Qed.

(** C5, amended: [start_pprof] checks nothing.  Every invocation calls the
    wall profiler's [register_handler] and ends as that call ends; on
    whichever thread it is started, its first step is into that call; and
    where [register_handler] always comes back, any number of invocations
    in a row all come back normally. *)
Theorem start_pprof_always_registers {W} (E : env W) (w : W) :
  run E net_http.start_pprof w =
  mkOutcome (fst (do_call E wall_profiler_register_handler w))
            (snd (do_call E wall_profiler_register_handler w))
            [wall_profiler_register_handler] /\
  (forall (ts : list (thread_state unit)) (i : nat),
     nth_error ts i = Some (Ready net_http.start_pprof) ->
     nth_error (fst (exec E [i] (ts, w))) i =
     Some (Blocked wall_profiler_register_handler Return)) /\
  ((forall w', exists w'',
       do_call E wall_profiler_register_handler w' = (Ok tt, w'')) ->
   forall n, fst (start_pprof_times E n w) = repeat (Ok tt) n).
Proof.
  split; [|split].
  - exact (run_perform E wall_profiler_register_handler w).
  - intros ts i Hi. simpl.
    destruct (step_nth_same E i ts w _ Hi) as [Hsame _]. exact Hsame.
  - intros Hreg n. revert w. induction n as [|n IH]; intros w; simpl.
    + reflexivity.
    + destruct (Hreg w) as [w'' Hw]. rewrite Hw. simpl.
      specialize (IH w'').
      destruct (start_pprof_times E n w'') as [rs w']. simpl in *.
      now rewrite IH.
Qed.

Lemma start_pprof_always_registers_witness :
  (forall w', exists w'',
      do_call Reference.process wall_profiler_register_handler w' =
      (Ok tt, w'')) /\
  fst (start_pprof_times Reference.process 3 Reference.idle) =
  [Ok tt; Ok tt; Ok tt].
Proof.
  assert (Hreg : forall w', exists w'',
             do_call Reference.process wall_profiler_register_handler w' =
             (Ok tt, w'')).
  { intros w'. eexists. reflexivity. }
  split; [exact Hreg|].
  destruct (start_pprof_always_registers Reference.process Reference.idle)
    as (_ & _ & H).
  exact (H Hreg 3%nat).
Defined.

(** A thread inside a call whose answer is all that is left to return:
    two steps later it has finished with what the call answered or
    raised. *)
Lemma blocked_call_finishes {W} (E : env W) (c : call)
  (ts : list (thread_state (answer c))) (w : W) (i : nat) :
  nth_error ts i = Some (Blocked c Return) ->
  nth_error (fst (exec E [i; i] (ts, w))) i =
  Some (Finished (fst (respond E c w))).
Proof.
  intros Hi. cbn [exec fst snd].
  destruct (step_nth_same E i ts w _ Hi) as [H1 Hw1].
  destruct (step_nth E i ts w) as [ts1 w1]. cbn [fst snd] in *.
  cbn [step_thread] in H1.
  destruct (step_nth_same E i ts1 w1 _ H1) as [H2 _].
  rewrite H2. destruct (respond E c w) as [[a|e] w']; reflexivity.
Qed.

Lemma in_sampling_call_intro {W R} (k : kind) (cfg : config W R) (i : nat)
  (t : thread_state R) :
  nth_error (fst cfg) i = Some t -> sampling k t = true ->
  in_sampling_call k cfg i = true.
Proof. unfold in_sampling_call. now intros ->. Qed.

(** C2, as stated, fails: two CPU starts on two threads.  After three
    steps each, both threads are inside [CPUProfiler.profile] at once, two
    sessions are under way, and both calls end with the profile bytes; the
    second start is not turned down. *)
Lemma two_cpu_starts_overlap :
  let pool : config Reference.World bytes :=
    ([Ready (start cpu 0%nat 5); Ready (start cpu 1%nat 5)], Reference.idle) in
  let mid := exec Reference.process [0; 0; 0; 1; 1; 1]%nat pool in
  let fin := exec Reference.process [0; 0; 1; 1]%nat mid in
  in_sampling_call cpu mid 0 = true /\
  in_sampling_call cpu mid 1 = true /\
  Reference.sessions (snd mid) = 2%nat /\
  finished_with fin 0 (Ok Reference.pprof_bytes) /\
  finished_with fin 1 (Ok Reference.pprof_bytes) /\
  ~ finished_with fin 1 (Exc AlreadyProfiling).
Proof.
  cbv zeta. repeat split. intros H. discriminate H.
Qed.

(** The same with the shared wall profiler. *)
Example two_wall_starts_overlap :
  let pool : config Reference.World bytes :=
    ([Ready (start wall_clock 0%nat 5); Ready (start wall_clock 1%nat 5)],
     Reference.idle) in
  let mid := exec Reference.process [0; 1]%nat pool in
  let fin := exec Reference.process [0; 0; 1; 1]%nat mid in
  in_sampling_call wall_clock mid 0 = true /\
  in_sampling_call wall_clock mid 1 = true /\
  finished_with fin 0 (Ok Reference.pprof_bytes) /\
  finished_with fin 1 (Ok Reference.pprof_bytes).
Proof. cbv zeta. repeat split. Qed.

(** C2, amended: the handlers keep no session state and check none.  A
    start goes into the profiler's sampling call whatever the other
    threads are doing, also while one of them is inside the sampling call
    of the same kind, and that thread stays there: the wall handler with
    its first step, the CPU handler once its new [CPUProfiler] is made.
    Whether the call then fails is up to the profiler: the start ends
    with what the sampling call answers or raises. *)
Theorem start_enters_sampling_call {W} (E : env W) (self : handler_ref)
  (duration_secs : Z) (ts : list (thread_state bytes)) (w : W) (i j : nat)
  (other : thread_state bytes) :
  i <> j ->
  nth_error ts j = Some other ->
  (nth_error ts i = Some (Ready (start wall_clock self duration_secs)) ->
   let cfg := exec E [i] (ts, w) in
   nth_error (fst cfg) i =
   Some (Blocked (wall_profiler_profile duration_secs) Return) /\
   nth_error (fst cfg) j = Some other) /\
  (nth_error ts i = Some (Ready (start cpu self duration_secs)) ->
   forall p w1,
     respond E CPUProfiler_new (enter E CPUProfiler_new w) = (Ok p, w1) ->
     let cfg := exec E [i; i; i] (ts, w) in
     nth_error (fst cfg) i =
     Some (Blocked (CPUProfiler_profile p duration_secs) Return) /\
     nth_error (fst cfg) j = Some other) /\
  (forall (ts' : list (thread_state bytes)) (w' : W),
     nth_error ts' i =
     Some (Blocked (wall_profiler_profile duration_secs) Return) ->
     nth_error (fst (exec E [i; i] (ts', w'))) i =
     Some (Finished
             (fst (respond E (wall_profiler_profile duration_secs) w')))) /\
  (forall (p : profiler_ref) (ts' : list (thread_state bytes)) (w' : W),
     nth_error ts' i =
     Some (Blocked (CPUProfiler_profile p duration_secs) Return) ->
     nth_error (fst (exec E [i; i] (ts', w'))) i =
     Some (Finished
             (fst (respond E (CPUProfiler_profile p duration_secs) w')))).
Proof.
  intros Hij Hj. split; [|split; [|split]];
    [| |intros ts' w' Hb;
        exact (blocked_call_finishes E (wall_profiler_profile duration_secs)
                 ts' w' i Hb)
       |intros p ts' w' Hb;
        exact (blocked_call_finishes E (CPUProfiler_profile p duration_secs)
                 ts' w' i Hb)].
  - intros Hi. cbn [exec fst snd].
    destruct (step_nth_same E i ts w _ Hi) as [Hsame _].
    split; [exact Hsame|].
    now rewrite step_nth_other.
  - intros Hi p w1 Hnew. cbn [exec fst snd].
    destruct (step_nth_same E i ts w _ Hi) as [H1 Hw1].
    cbn in H1, Hw1.
    destruct (step_nth E i ts w) as [ts1 wa] eqn:Hs1. cbn [fst snd] in *.
    subst wa.
    destruct (step_nth_same E i ts1 (enter E CPUProfiler_new w) _ H1)
      as [H2 Hw2].
    cbn in H2, Hw2. rewrite Hnew in H2, Hw2. cbn in H2, Hw2.
    destruct (step_nth E i ts1 (enter E CPUProfiler_new w)) as [ts2 wb] eqn:Hs2.
    cbn [fst snd] in *. subst wb.
    destruct (step_nth_same E i ts2 w1 _ H2) as [H3 _].
    cbn in H3. split; [exact H3|].
    rewrite step_nth_other by exact Hij.
    pose proof (step_nth_other E i j ts1 (enter E CPUProfiler_new w) Hij) as Ho2.
    rewrite Hs2 in Ho2. cbn [fst] in Ho2. rewrite Ho2.
    pose proof (step_nth_other E i j ts w Hij) as Ho1.
    rewrite Hs1 in Ho1. cbn [fst] in Ho1. now rewrite Ho1.
Qed.

(** A second wall start while thread 0 is sampling, and a second CPU
    start while thread 0 is sampling. *)
Lemma start_enters_sampling_call_witness :
  let sampling_wall : thread_state bytes :=
    Blocked (wall_profiler_profile 5) Return in
  let sampling_cpu : thread_state bytes :=
    Blocked (CPUProfiler_profile 0%nat 5) Return in
  (let cfg := exec Reference.process [1%nat]
                ([sampling_wall; Ready (start wall_clock 1%nat 5)],
                 Reference.idle) in
   in_sampling_call wall_clock cfg 0 = true /\
   in_sampling_call wall_clock cfg 1 = true) /\
  (let cfg := exec Reference.process [1; 1; 1]%nat
                ([sampling_cpu; Ready (start cpu 1%nat 5)],
                 Reference.idle) in
   in_sampling_call cpu cfg 0 = true /\
   in_sampling_call cpu cfg 1 = true).
Proof.
  cbv zeta. split.
  - destruct (start_enters_sampling_call Reference.process 1%nat 5
                [Blocked (wall_profiler_profile 5) Return;
                 Ready (start wall_clock 1%nat 5)]
                Reference.idle 1%nat 0%nat _
                (fun H : 1%nat = 0%nat => O_S 0 (eq_sym H)) eq_refl)
      as (Hwall & _).
    destruct (Hwall eq_refl) as [Hi Hj].
    split.
    + exact (in_sampling_call_intro wall_clock _ _ _ Hj eq_refl).
    + exact (in_sampling_call_intro wall_clock _ _ _ Hi eq_refl).
  - destruct (start_enters_sampling_call Reference.process 1%nat 5
                [Blocked (CPUProfiler_profile 0%nat 5) Return;
                 Ready (start cpu 1%nat 5)]
                Reference.idle 1%nat 0%nat _
                (fun H : 1%nat = 0%nat => O_S 0 (eq_sym H)) eq_refl)
      as (_ & Hcpu & _).
    destruct (Hcpu eq_refl _ _ eq_refl) as [Hi Hj].
    split.
    + exact (in_sampling_call_intro cpu _ _ _ Hj eq_refl).
    + exact (in_sampling_call_intro cpu _ _ _ Hi eq_refl).
Defined.

(* ================================================================== *)
(** ** The command line *)

Lemma lor_octet (a b : N) : (a < 256 -> b < 256 -> N.lor a b < 256)%N.
Proof.
  intros Ha Hb.
  destruct (N.eq_dec (N.lor a b) 0) as [Hz|Hnz]; [rewrite Hz; lia|].
  change 256%N with (2 ^ 8)%N. apply N.log2_lt_pow2; [lia|].
  rewrite N.log2_lor. apply N.max_lub_lt.
  - destruct (N.eq_dec a 0) as [->|Ha0]; [simpl; lia|].
    apply N.log2_lt_pow2; [lia|exact Ha].
  - destruct (N.eq_dec b 0) as [->|Hb0]; [simpl; lia|].
    apply N.log2_lt_pow2; [lia|exact Hb].
Qed.

Lemma low_six_bits (x : N) : (N.land x 0x3F < 256)%N.
Proof.
  change 0x3F%N with (N.ones 6). rewrite N.land_ones.
  apply N.lt_trans with (2 ^ 6)%N; [apply N.mod_lt; discriminate|reflexivity].
Qed.

Lemma shiftr_below (c k q : N) : (c < 2 ^ k * q -> N.shiftr c k < q)%N.
Proof.
  intros H. rewrite N.shiftr_div_pow2.
  apply N.Div0.div_lt_upper_bound. exact H.
Qed.

Ltac octet :=
  first [ lia
        | apply low_six_bits
        | apply shiftr_below; lia
        | apply lor_octet; [reflexivity|octet] ].

Ltac all_octets :=
  repeat (apply Forall_cons; [octet|]); apply Forall_nil.

(** What [encode] gives for a code point (below 0x110000, as every code
    point of a [str] is) are octets. *)
Lemma utf8_char_octets_result (c : N) :
  (c < 0x110000)%N ->
  match utf8_char c with
  | Ok b => Forall (fun x => (x < 256)%N) b
  | Exc _ => True
  end.
Proof.
  unfold utf8_char. intros Hc.
  destruct (N.ltb_spec c 0x80) as [H1|H1]; [all_octets|].
  destruct (N.ltb_spec c 0x800) as [H2|H2]; [all_octets|].
  destruct (is_surrogate c); [exact I|].
  destruct (N.ltb_spec c 0x10000) as [H3|H3]; all_octets.
Qed.

Lemma utf8_char_octets (c : N) (b : bytes) :
  (c < 0x110000)%N -> utf8_char c = Ok b ->
  Forall (fun x => (x < 256)%N) b.
Proof.
  intros Hc Hb. pose proof (utf8_char_octets_result c Hc) as H.
  now rewrite Hb in H.
Qed.

Lemma encode_utf8_octets (s : str) (b : bytes) :
  Forall (fun c => (c < 0x110000)%N) s -> encode_utf8 s = Ok b ->
  Forall (fun x => (x < 256)%N) b.
Proof.
  intros Hs. revert b. induction Hs as [|c s Hc Hs IH]; simpl; intros b.
  - intros [= <-]. constructor.
  - destruct (utf8_char c) as [bc|e] eqn:Hbc; simpl; [|discriminate].
    destruct (encode_utf8 s) as [bs|e]; simpl; [|discriminate].
    intros [= <-]. apply Forall_app. split.
    + now apply (utf8_char_octets c).
    + now apply IH.
Qed.

Lemma utf8_char_surrogate (c : N) :
  is_surrogate c = true -> utf8_char c = Exc UnicodeEncodeError.
Proof.
  unfold utf8_char. intros Hs. rewrite Hs.
  unfold is_surrogate in Hs. apply andb_prop in Hs as [Hlo _].
  apply N.leb_le in Hlo.
  destruct (N.ltb_spec c 0x80); [lia|].
  destruct (N.ltb_spec c 0x800); [lia|reflexivity].
Qed.

Lemma utf8_char_scalar (c : N) :
  is_surrogate c = false -> exists b, utf8_char c = Ok b.
Proof.
  unfold utf8_char. intros ->.
  destruct (c <? 0x80)%N; [eauto|].
  destruct (c <? 0x800)%N; [eauto|].
  destruct (c <? 0x10000)%N; eauto.
Qed.

Lemma encode_utf8_scalar (s : str) :
  encodable s = true -> exists b, encode_utf8 s = Ok b.
Proof.
  induction s as [|c s IH]; simpl; intros Hs.
  - eauto.
  - apply andb_prop in Hs as [Hc Hs].
    apply negb_true_iff in Hc.
    destruct (utf8_char_scalar c Hc) as [b ->].
    destruct (IH Hs) as [bs ->]. simpl. eauto.
Qed.

(** One surrogate anywhere in the text and the encoding raises. *)
Lemma encode_utf8_surrogate (s : str) :
  encodable s = false -> encode_utf8 s = Exc UnicodeEncodeError.
Proof.
  induction s as [|c s IH]; simpl; intros Hs.
  - discriminate.
  - destruct (is_surrogate c) eqn:Hc; simpl in Hs.
    + now rewrite (utf8_char_surrogate c Hc).
    + destruct (utf8_char_scalar c Hc) as [b ->]. simpl.
      now rewrite (IH Hs).
Qed.

Lemma encode_utf8_app (s t : str) (b c : bytes) :
  encode_utf8 s = Ok b -> encode_utf8 t = Ok c ->
  encode_utf8 (s ++ t) = Ok (b ++ c).
Proof.
  revert b. induction s as [|x s IH]; simpl; intros b Hs Ht.
  - injection Hs as <-. exact Ht.
  - destruct (utf8_char x) as [bx|e]; simpl in *; [|discriminate].
    destruct (encode_utf8 s) as [bs|e]; simpl in *; [|discriminate].
    injection Hs as <-. rewrite (IH bs eq_refl Ht). simpl.
    now rewrite app_assoc.
Qed.

(** Encoding goes through [join]: the encoded items, joined by the
    encoded separator. *)
Lemma encode_utf8_join (sep : str) (sepb : bytes) (items : list str)
  (bs : list bytes) :
  encode_utf8 sep = Ok sepb ->
  Forall2 (fun s b => encode_utf8 s = Ok b) items bs ->
  encode_utf8 (join sep items) = Ok (join sepb bs).
Proof.
  intros Hsep Hall. induction Hall as [|s b items bs Hs Hrest IH].
  - reflexivity.
  - simpl. destruct Hrest as [|s' b' items' bs' Hs' Hrest'].
    + exact Hs.
    + apply encode_utf8_app; [exact Hs|].
      apply encode_utf8_app; [exact Hsep|exact IH].
Qed.

Lemma encode_each (items : list str) :
  forallb encodable items = true ->
  exists bs, Forall2 (fun s b => encode_utf8 s = Ok b) items bs.
Proof.
  induction items as [|s items IH]; simpl; intros H.
  - exists []. constructor.
  - apply andb_prop in H as [Hs H].
    destruct (encode_utf8_scalar s Hs) as [b Hb].
    destruct (IH H) as [bs Hbs].
    exists (b :: bs). now constructor.
Qed.

(** Between [n] items there are [n - 1] separators and none after the
    last. *)
Lemma join_length {A} (sep : list A) (items : list (list A)) :
  List.length (join sep items) =
  (fold_right (fun b n => List.length b + n) 0 items
   + (List.length items - 1) * List.length sep)%nat.
Proof.
  induction items as [|x items IH]; [reflexivity|].
  destruct items as [|y items].
  - simpl. lia.
  - change (join sep (x :: y :: items)) with (x ++ sep ++ join sep (y :: items)).
    rewrite !length_app, IH. simpl. lia.
Qed.

Lemma join_last {A} (sep : list A) (items : list (list A)) (x y : list A) :
  join sep (items ++ [x; y]) = join sep (items ++ [x]) ++ sep ++ y.
Proof.
  induction items as [|z items IH].
  - reflexivity.
  - assert (Hnil : forall tl : list (list A), items ++ tl = [] -> tl = []).
    { intros tl H. now apply app_eq_nil in H. }
    simpl. destruct (items ++ [x; y]) eqn:H1; [now apply Hnil in H1|].
    destruct (items ++ [x]) eqn:H2; [now apply Hnil in H2|].
    rewrite IH. now rewrite <- !app_assoc.
Qed.

(** C6, as stated, fails: an argument that holds a lone surrogate (the way
    an argument that is not UTF-8 reaches [sys.argv]) makes [cmdline]
    raise [UnicodeEncodeError]; nothing is returned. *)
Lemma cmdline_surrogate_argument :
  returned (run Reference.process (net_http.cmdline (Some 0%nat))
              (Reference.boot [literal "prog"; [0xDCFF%N]] false [])) =
  Exc UnicodeEncodeError.
Proof. reflexivity. Qed.

(** C6, amended: when no argument holds a surrogate, [cmdline] reads
    [sys.argv], changes nothing else, and returns the UTF-8 bytes of the
    arguments with one NUL byte between neighbours and none at the end:
    as many bytes as the arguments have together plus one per gap. *)
Theorem cmdline_nul_joined {W} (E : env W) (w w' : W) (self : handler_ref)
  (args : list str) :
  do_call E sys_argv w = (Ok args, w') ->
  forallb encodable args = true ->
  exists encoded : list bytes,
    Forall2 (fun arg b => encode_utf8 arg = Ok b) args encoded /\
    run E (net_http.cmdline (Some self)) w =
    mkOutcome (Ok (join [0%N] encoded)) w' [sys_argv] /\
    List.length (join [0%N] encoded) =
    (total_length encoded + (List.length args - 1))%nat.
Proof.
  intros Hargv Hok. destruct (encode_each args Hok) as [encoded Henc].
  exists encoded. split; [exact Henc|]. split.
  - answer_calls.
    rewrite (encode_utf8_join net_http.NUL [0%N] args encoded eq_refl Henc).
    reflexivity.
  - rewrite join_length, (Forall2_length Henc). unfold total_length.
    change (List.length [0%N]) with 1%nat.
    now rewrite Nat.mul_1_r.
Qed.

Lemma cmdline_nul_joined_witness :
  exists encoded : list bytes,
    Forall2 (fun arg b => encode_utf8 arg = Ok b)
            [literal "prog"; literal "-x"; literal "1"] encoded /\
    run Reference.process (net_http.cmdline (Some 0%nat)) Reference.idle =
    mkOutcome (Ok (join [0%N] encoded)) Reference.idle [sys_argv] /\
    List.length (join [0%N] encoded) = (total_length encoded + (3 - 1))%nat.
Proof.
  exact (cmdline_nul_joined Reference.process Reference.idle Reference.idle
           0%nat [literal "prog"; literal "-x"; literal "1"] eq_refl eq_refl).
Defined.

(** The arguments prog, -x and 1 give nine bytes: p r o g NUL - x NUL 1. *)
Example cmdline_prog_x_1 :
  returned (run Reference.process (net_http.cmdline (Some 0%nat)) Reference.idle) =
  Ok [112; 114; 111; 103; 0; 45; 120; 0; 49]%N.
Proof. reflexivity. Qed.

(** A last argument that is empty leaves the separator as the last byte:
    it is a separator, not a terminator. *)
Example cmdline_empty_last_argument :
  returned (run Reference.process (net_http.cmdline (Some 0%nat))
              (Reference.boot [literal "prog"; []] false [])) =
  Ok [112; 114; 111; 103; 0]%N.
Proof. reflexivity. Qed.

(* ================================================================== *)
(** ** More on the aggregation loop *)

Lemma aggregate_ok_inv (stats : list Statistic) (samples : samples_dict) :
  aggregate stats = Ok samples ->
  NoDup (map trace_of stats) /\ samples = map entry_of stats.
Proof.
  intros Hok.
  destruct (ListDec.NoDup_dec trace_eq_dec (map trace_of stats)) as [Hnd|Hdup].
  - rewrite (aggregate_distinct _ Hnd) in Hok. injection Hok as <-. auto.
  - rewrite (aggregate_repeated _ Hdup) in Hok. discriminate.
Qed.

(** Where the loop raises: at the first statistic whose trace was met
    before, with the dict holding the statistics before it. *)
Lemma for_each_first_repeat (stats seen : list Statistic) (e : exn)
  (d : samples_dict) :
  NoDup (map trace_of seen) ->
  for_each aggregate_stat stats (map entry_of seen) = (Some e, d) ->
  e = tuple_item_error /\
  exists handled st rest,
    stats = handled ++ st :: rest /\
    NoDup (map trace_of (seen ++ handled)) /\
    In (trace_of st) (map trace_of (seen ++ handled)) /\
    d = map entry_of (seen ++ handled).
Proof.
  revert seen. induction stats as [|st stats IH]; intros seen Hseen; simpl.
  - discriminate.
  - unfold seq_stmt.
    destruct (in_dec trace_eq_dec (trace_of st) (map trace_of seen))
      as [Hin|Hnew].
    + rewrite aggregate_stat_again by assumption. intros [= <- <-].
      split; [reflexivity|]. exists [], st, stats.
      rewrite app_nil_r. auto.
    + rewrite aggregate_stat_new by assumption. intros Hrun.
      destruct (IH (seen ++ [st]) (NoDup_traces_snoc _ _ Hseen Hnew) Hrun)
        as (-> & handled & st' & rest & -> & Hnd & Hin & ->).
      split; [reflexivity|]. exists (st :: handled), st', rest.
      rewrite <- app_assoc in Hnd, Hin. rewrite <- app_assoc. auto.
Qed.

(** X1: the aggregation loop returns exactly on the snapshots in which
    no trace comes twice, and then the dict has one entry per statistic,
    in the order of the snapshot, each a (count, size) tuple under the
    statistic's trace. *)
Theorem aggregate_returns_iff_distinct (stats : list Statistic)
  (samples : samples_dict) :
  aggregate stats = Ok samples <->
  NoDup (map trace_of stats) /\ samples = map entry_of stats.
Proof.
  split.
  - apply aggregate_ok_inv.
  - intros [Hnd ->]. now apply aggregate_distinct.
Qed.

Lemma aggregate_returns_iff_distinct_witness :
  let stats := [Reference.stat_at 10 3 100; Reference.stat_at 11 1 8] in
  NoDup (map trace_of stats) /\
  aggregate stats = Ok (map entry_of stats).
Proof.
  assert (Hnd : NoDup (map trace_of
                  [Reference.stat_at 10 3 100; Reference.stat_at 11 1 8])).
  { constructor.
    - simpl. intros [Heq|[]]. discriminate Heq.
    - constructor; [intros []|constructor]. }
  split; [exact Hnd|].
  exact (proj2 (aggregate_returns_iff_distinct _ _) (conj Hnd eq_refl)).
Defined.

(** X2: the only exception the loop lets out is the [TypeError] of the
    store into a tuple ([KeyError] is always caught, the reads of items 0
    and 1 are always in range), and it comes at the first statistic whose
    trace an earlier statistic of the snapshot had. *)
Theorem aggregate_raises_at_first_repeat (stats : list Statistic) (e : exn) :
  aggregate stats = Exc e ->
  e = tuple_item_error /\
  exists handled st rest,
    stats = handled ++ st :: rest /\
    NoDup (map trace_of handled) /\
    In (trace_of st) (map trace_of handled).
Proof.
  unfold aggregate. intros Hexc.
  destruct (for_each aggregate_stat stats []) as [[e'|] d] eqn:Hrun;
    [|discriminate].
  injection Hexc as ->.
  destruct (for_each_first_repeat stats [] e d (NoDup_nil _) Hrun)
    as (He & handled & st & rest & Hsplit & Hnd & Hin & _).
  split; [exact He|]. exists handled, st, rest. auto.
Qed.

Lemma aggregate_raises_at_first_repeat_witness :
  let stats := [Reference.stat_at 7 3 100; Reference.stat_at 8 1 1;
                Reference.stat_at 7 2 50] in
  aggregate stats = Exc tuple_item_error /\
  exists handled st rest,
    stats = handled ++ st :: rest /\
    NoDup (map trace_of handled) /\
    In (trace_of st) (map trace_of handled).
Proof.
  split; [reflexivity|].
  exact (proj2 (aggregate_raises_at_first_repeat
                  [Reference.stat_at 7 3 100; Reference.stat_at 8 1 1;
                   Reference.stat_at 7 2 50] tuple_item_error eq_refl)).
Defined.

(** X3: whenever [build_heap_pprof] returns, no trace of the snapshot
    came twice, the calls it made were [Builder()], one
    [populate_profile] with one entry per statistic in snapshot order,
    "HEAP", "bytes", the snapshot's sample rate and 1, and [emit()]; what
    it returns is what [emit] answered. *)
Theorem build_heap_pprof_returns {W} (E : env W) (w : W) (snap : Snapshot)
  (pprof : bytes) :
  let o := run E (net_http.build_heap_pprof snap) w in
  returned o = Ok pprof ->
  NoDup (map trace_of (statistics snap "traceback")) /\
  exists b w4,
    calls o =
    [Builder_new;
     Builder_populate_profile b (map entry_of (statistics snap "traceback"))
       "HEAP" "bytes" (sample_rate snap) 1;
     Builder_emit b] /\
    do_call E (Builder_emit b) w4 = (Ok pprof, world o).
Proof.
  unfold net_http.build_heap_pprof. simpl.
  destruct (do_call E Builder_new w) as [[b|e] w1]; simpl; [|discriminate].
  destruct (aggregate (statistics snap "traceback")) as [samples|e] eqn:Hagg;
    simpl; [|discriminate].
  destruct (aggregate_ok_inv _ _ Hagg) as [Hnd ->].
  destruct (do_call E (Builder_populate_profile b _ "HEAP" "bytes" _ 1) w1)
    as [[[]|e] w2]; simpl; [|discriminate].
  destruct (do_call E (Builder_emit b) w2) as [[out|e] w3] eqn:Hemit; simpl;
    [|discriminate].
  intros [= <-]. split; [exact Hnd|]. exists b, w2. auto.
Qed.

Lemma build_heap_pprof_returns_witness :
  let snap := Reference.snapshot_of
                [Reference.stat_at 10 3 100; Reference.stat_at 11 1 8] in
  let o := run Reference.process (net_http.build_heap_pprof snap)
             Reference.idle in
  returned o = Ok Reference.pprof_bytes /\
  NoDup (map trace_of (statistics snap "traceback")).
Proof.
  split; [reflexivity|].
  exact (proj1 (build_heap_pprof_returns Reference.process Reference.idle
                  (Reference.snapshot_of
                     [Reference.stat_at 10 3 100; Reference.stat_at 11 1 8])
                  Reference.pprof_bytes eq_refl)).
Defined.

(* ================================================================== *)
(** ** More on the heap endpoint *)

(** Go through every way the calls of a handler can be answered. *)
Ltac every_answer :=
  repeat (simpl;
          match goal with
          | |- context [do_call ?E ?c ?w] =>
              destruct (do_call E c w) as [[?|?] ?]
          | |- context [if negb ?b then _ else _] => destruct b
          | |- context [lift (aggregate ?stats)] =>
              destruct (aggregate stats)
          end);
  simpl.

(** X4: [heap] calls [gc.collect()] once when [run_gc] is true and not at
    all when it is false or left out, however the request goes on. *)
Theorem heap_collects_once_iff_asked {W} (E : env W) (w : W)
  (has_mprofile : bool) (self : handler_ref) (run_gc : option bool) :
  calls_to gc_module
    (calls (run E (net_http.heap has_mprofile (Some self) run_gc) w)) =
  if defaulting false run_gc then [gc_collect] else [].
Proof.
  destruct run_gc as [[|]|], has_mprofile; every_answer; reflexivity.
Qed.

(** X5: where [mprofile] could not be imported, [heap] never calls into
    [mprofile], never makes a [Builder], and never returns a profile. *)
Theorem heap_without_mprofile {W} (E : env W) (w : W) (self : handler_ref)
  (run_gc : option bool) :
  let o := run E (net_http.heap false (Some self) run_gc) w in
  calls_to mprofile_module (calls o) = [] /\
  calls_to Builder_class (calls o) = [] /\
  forall pprof, returned o <> Ok (Some pprof).
Proof.
  destruct run_gc as [[|]|]; every_answer;
    repeat split; intros; discriminate.
Qed.

(** X6: what [heap] returns tells how the request ended.  [None] comes
    back only from [send_error] with status 412 as the last call; bytes
    come back only with [emit()] as the last call and no error sent; and
    no request sends more than one error. *)
Theorem heap_answer_and_final_call {W} (E : env W) (w : W)
  (has_mprofile : bool) (self : handler_ref) (run_gc : option bool) :
  let o := run E (net_http.heap has_mprofile (Some self) run_gc) w in
  (returned o = Ok None ->
   exists message,
     final_call (calls o) = Some (send_error self 412 message)) /\
  (forall pprof, returned o = Ok (Some pprof) ->
     calls_to request_handler (calls o) = [] /\
     exists b, final_call (calls o) = Some (Builder_emit b)) /\
  (List.length (calls_to request_handler (calls o)) <= 1)%nat.
Proof.
  destruct run_gc as [[|]|], has_mprofile; every_answer;
    (split; [|split]);
    try (intros H; discriminate H);
    try (intros pprof H; discriminate H);
    try (intros _; eexists; reflexivity);
    try (intros pprof _; split; [reflexivity|eexists; reflexivity]);
    simpl; lia.
Qed.

Lemma heap_answer_and_final_call_witness :
  let refused := run Reference.process (net_http.heap true (Some 0%nat) None)
                   (Reference.boot [] false []) in
  let served := run Reference.process
                  (net_http.heap true (Some 0%nat) (Some true))
                  (Reference.boot [] true [Reference.stat_at 10 3 100]) in
  (exists message,
     final_call (calls refused) = Some (send_error 0%nat 412 message)) /\
  calls_to request_handler (calls served) = [].
Proof.
  split.
  - exact (proj1 (heap_answer_and_final_call Reference.process
                    (Reference.boot [] false []) true 0%nat None) eq_refl).
  - exact (proj1 (proj1 (proj2 (heap_answer_and_final_call Reference.process
                    (Reference.boot [] true [Reference.stat_at 10 3 100])
                    true 0%nat (Some true)))
                    Reference.pprof_bytes eq_refl)).
Defined.

(** X7: nothing guards [take_snapshot].  When the tracer said it was on
    and taking the snapshot raises, [heap] ends with that exception: no
    412 is sent and no builder is made. *)
Theorem heap_snapshot_failure {W} (E : env W) (w w0 w1 w2 : W)
  (self : handler_ref) (run_gc : option bool) (e : exn) :
  world_at_checks E run_gc w = Some w0 ->
  do_call E mprofile_is_tracing w0 = (Ok true, w1) ->
  do_call E mprofile_take_snapshot w1 = (Exc e, w2) ->
  run E (net_http.heap true (Some self) run_gc) w =
  mkOutcome (Exc e) w2
    (gc_calls run_gc ++ [mprofile_is_tracing; mprofile_take_snapshot]).
Proof.
  unfold world_at_checks, gc_calls. intros Hgc Htr Hsnap.
  destruct run_gc as [[|]|]; simpl in Hgc |- *.
  - destruct (do_call E gc_collect w) as [[n|e'] w'] eqn:Hcollect;
      [|discriminate].
    injection Hgc as ->. answer_calls. reflexivity.
  - injection Hgc as ->. answer_calls. reflexivity.
  - injection Hgc as ->. answer_calls. reflexivity.
Qed.

Lemma heap_snapshot_failure_witness :
  run tracer_stops (net_http.heap true (Some 0%nat) (Some true))
      Reference.idle =
  mkOutcome (Exc (LibraryError "RuntimeError"))
    (Reference.mkWorld (Reference.argv Reference.idle) false
       (Reference.snapshot Reference.idle) 1 0 0 0)
    [gc_collect; mprofile_is_tracing; mprofile_take_snapshot].
Proof.
  exact (heap_snapshot_failure tracer_stops Reference.idle _ _ _ 0%nat
           (Some true) _ eq_refl eq_refl eq_refl).
Defined.

(* ================================================================== *)
(** ** More on the CPU and wall-clock endpoints *)

(** X8: the two kinds keep apart.  [wall] makes one call, [profile] on
    the shared wall profiler with the duration given or 30; it registers
    no handler and makes no [CPUProfiler].  [profile] makes a
    [CPUProfiler]; when that raises, the handler raises the same and
    nothing is sampled; when it comes back, the handler calls [profile]
    on the profiler just made, with the duration given or 30, and ends as
    that call ends.  It never touches the wall profiler. *)
Theorem kinds_keep_apart {W} (E : env W) (w : W) (self : handler_ref)
  (duration_secs : option Z) :
  let d := defaulting 30 duration_secs in
  let made := do_call E CPUProfiler_new w in
  let o := run E (net_http.profile (Some self) duration_secs) w in
  calls (run E (net_http.wall (Some self) duration_secs) w) =
  [wall_profiler_profile d] /\
  calls_to wall_profiler_object (calls o) = [] /\
  o = match fst made with
      | Ok p =>
          let sampled := do_call E (CPUProfiler_profile p d) (snd made) in
          mkOutcome (fst sampled) (snd sampled)
                    [CPUProfiler_new; CPUProfiler_profile p d]
      | Exc e => mkOutcome (Exc e) (snd made) [CPUProfiler_new]
      end.
Proof.
  cbv zeta. split; [|split].
  - every_answer; reflexivity.
  - every_answer; reflexivity.
  - simpl. destruct (do_call E CPUProfiler_new w) as [[p|e] w1]; simpl;
      [|reflexivity].
    now destruct (do_call E (CPUProfiler_profile p (defaulting 30 duration_secs))
                    w1) as [[out|e] w2].
Qed.

(* ================================================================== *)
(** ** More on the command line *)

Lemma encodable_app (s t : str) :
  encodable (s ++ t) = encodable s && encodable t.
Proof. apply forallb_app. Qed.

Lemma encodable_join (sep : str) (items : list str) :
  encodable sep = true ->
  encodable (join sep items) = forallb encodable items.
Proof.
  intros Hsep. induction items as [|x items IH]; [reflexivity|].
  destruct items as [|y items].
  - simpl. now rewrite andb_true_r.
  - change (join sep (x :: y :: items))
      with (x ++ sep ++ join sep (y :: items)).
    rewrite !encodable_app, Hsep, IH. reflexivity.
Qed.

(** X9: one surrogate in one argument is enough: [cmdline] then reads
    [sys.argv], raises [UnicodeEncodeError] and returns nothing, not even
    the arguments before the offending one. *)
Theorem cmdline_unencodable_argument {W} (E : env W) (w w' : W)
  (self : handler_ref) (args : list str) :
  do_call E sys_argv w = (Ok args, w') ->
  forallb encodable args = false ->
  run E (net_http.cmdline (Some self)) w =
  mkOutcome (Exc UnicodeEncodeError) w' [sys_argv].
Proof.
  intros Hargv Hbad. answer_calls.
  rewrite encode_utf8_surrogate; [reflexivity|].
  now rewrite (encodable_join net_http.NUL args eq_refl).
Qed.

Lemma cmdline_unencodable_argument_witness :
  run Reference.process (net_http.cmdline (Some 0%nat))
      (Reference.boot [literal "prog"; literal "a" ++ [0xD800%N]; literal "b"]
         false []) =
  mkOutcome (Exc UnicodeEncodeError)
    (Reference.boot [literal "prog"; literal "a" ++ [0xD800%N]; literal "b"]
       false [])
    [sys_argv].
Proof.
  exact (cmdline_unencodable_argument Reference.process
           (Reference.boot
              [literal "prog"; literal "a" ++ [0xD800%N]; literal "b"]
              false [])
           (Reference.boot
              [literal "prog"; literal "a" ++ [0xD800%N]; literal "b"]
              false [])
           0%nat
           [literal "prog"; literal "a" ++ [0xD800%N]; literal "b"]
           eq_refl eq_refl).
Defined.

Lemma utf8_char_no_nul (c : N) :
  c <> 0%N ->
  match utf8_char c with
  | Ok b => ~ In 0%N b
  | Exc _ => True
  end.
Proof.
  intros Hc. unfold utf8_char.
  assert (Hlead : forall a x, a <> 0%N -> N.lor a x <> 0%N).
  { intros a x Ha H. apply N.lor_eq_0_iff in H as [H _]. contradiction. }
  destruct (c <? 0x80)%N.
  { intros [H|[]]. now apply Hc. }
  destruct (c <? 0x800)%N.
  { intros [H|[H|[]]]; revert H; apply Hlead; discriminate. }
  destruct (is_surrogate c); [exact I|].
  destruct (c <? 0x10000)%N.
  { intros [H|[H|[H|[]]]]; revert H; apply Hlead;
      discriminate. }
  intros [H|[H|[H|[H|[]]]]]; revert H; apply Hlead;
    discriminate.
Qed.

Lemma encode_utf8_no_nul (s : str) (b : bytes) :
  nul_free s = true -> encode_utf8 s = Ok b -> ~ In 0%N b.
Proof.
  revert b. induction s as [|c s IH]; simpl; intros b Hs.
  - intros [= <-] [].
  - apply andb_prop in Hs as [Hc Hs].
    apply negb_true_iff, N.eqb_neq in Hc.
    pose proof (utf8_char_no_nul c Hc) as Hhead.
    destruct (utf8_char c) as [bc|e]; simpl; [|discriminate].
    destruct (encode_utf8 s) as [bs|e]; simpl; [|discriminate].
    intros [= <-] Hin. apply in_app_or in Hin as [Hin|Hin].
    + now apply Hhead.
    + now apply (IH bs Hs).
Qed.

Lemma split_at_piece (sep : N) (b : bytes) :
  ~ In sep b -> split_at sep b = [b].
Proof.
  induction b as [|x b IH]; simpl; intros Hnot; [reflexivity|].
  destruct (N.eqb_spec x sep) as [->|Hne].
  - exfalso. apply Hnot. now left.
  - rewrite IH; [reflexivity|]. intros Hin. apply Hnot. now right.
Qed.

Lemma split_at_app (sep : N) (b tl : bytes) :
  ~ In sep b -> split_at sep (b ++ sep :: tl) = b :: split_at sep tl.
Proof.
  induction b as [|x b IH]; simpl; intros Hnot.
  - now rewrite N.eqb_refl.
  - destruct (N.eqb_spec x sep) as [->|Hne].
    + exfalso. apply Hnot. now left.
    + rewrite IH; [reflexivity|]. intros Hin. apply Hnot. now right.
Qed.

(** Joining with a byte that is in none of the pieces can be undone. *)
Lemma split_at_join (sep : N) (pieces : list bytes) :
  pieces <> [] ->
  Forall (fun b => ~ In sep b) pieces ->
  split_at sep (join [sep] pieces) = pieces.
Proof.
  intros Hne Hall. induction Hall as [|b pieces Hb Hall IH].
  - contradiction.
  - destruct pieces as [|b2 pieces].
    + simpl. now apply split_at_piece.
    + change (join [sep] (b :: b2 :: pieces))
        with (b ++ sep :: join [sep] (b2 :: pieces)).
      rewrite split_at_app by assumption.
      rewrite IH; [reflexivity|discriminate].
Qed.

(** X10: the command line can be taken apart again.  When there is at
    least one argument and no argument holds a surrogate or the code point
    0, cutting what [cmdline] returns at the NUL bytes gives back the
    UTF-8 bytes of the arguments, one piece per argument, in order: no
    NUL byte of the output comes from inside an argument. *)
Theorem cmdline_split_gives_arguments {W} (E : env W) (w w' : W)
  (self : handler_ref) (args : list str) :
  do_call E sys_argv w = (Ok args, w') ->
  args <> [] ->
  forallb encodable args = true ->
  forallb nul_free args = true ->
  exists (out : bytes) (encoded : list bytes),
    returned (run E (net_http.cmdline (Some self)) w) = Ok out /\
    Forall2 (fun arg b => encode_utf8 arg = Ok b) args encoded /\
    split_at 0 out = encoded.
Proof.
  intros Hargv Hne Hok Hnul.
  destruct (encode_each args Hok) as [encoded Henc].
  exists (join [0%N] encoded), encoded. split; [|split].
  - answer_calls.
    now rewrite (encode_utf8_join net_http.NUL [0%N] args encoded eq_refl Henc).
  - exact Henc.
  - apply split_at_join.
    + intros ->. inversion Henc. now subst.
    + clear Hargv Hne Hok. induction Henc as [|arg b args encoded Hb _ IH].
      * constructor.
      * simpl in Hnul. apply andb_prop in Hnul as [Harg Hrest].
        constructor; [now apply (encode_utf8_no_nul arg)|now apply IH].
Qed.

Lemma cmdline_split_gives_arguments_witness :
  exists (out : bytes) (encoded : list bytes),
    returned (run Reference.process (net_http.cmdline (Some 0%nat))
                (Reference.boot [literal "prog"; []; [0xE9%N; 0x20AC%N]]
                   false [])) = Ok out /\
    Forall2 (fun arg b => encode_utf8 arg = Ok b)
            [literal "prog"; []; [0xE9%N; 0x20AC%N]] encoded /\
    split_at 0 out = encoded.
Proof.
  refine (cmdline_split_gives_arguments Reference.process
            (Reference.boot [literal "prog"; []; [0xE9%N; 0x20AC%N]] false [])
            (Reference.boot [literal "prog"; []; [0xE9%N; 0x20AC%N]] false [])
            0%nat
            [literal "prog"; []; [0xE9%N; 0x20AC%N]]
            eq_refl _ eq_refl eq_refl).
  discriminate.
Defined.

Lemma encode_utf8_ascii (s : str) :
  ascii_text s = true -> encode_utf8 s = Ok s.
Proof.
  induction s as [|c s IH]; simpl; intros Hs; [reflexivity|].
  apply andb_prop in Hs as [Hc Hs].
  unfold utf8_char. rewrite Hc, (IH Hs). reflexivity.
Qed.

(** X11: arguments of ASCII text come out as they are: the bytes
    returned are the code points of the arguments with a 0 between
    neighbours. *)
Theorem cmdline_ascii_arguments {W} (E : env W) (w w' : W)
  (self : handler_ref) (args : list str) :
  do_call E sys_argv w = (Ok args, w') ->
  forallb ascii_text args = true ->
  run E (net_http.cmdline (Some self)) w =
  mkOutcome (Ok (join [0%N] args)) w' [sys_argv].
Proof.
  intros Hargv Hascii. answer_calls.
  assert (Henc : Forall2 (fun s b => encode_utf8 s = Ok b) args args).
  { clear Hargv. induction args as [|a args IH]; [constructor|].
    simpl in Hascii. apply andb_prop in Hascii as [Ha Hrest].
    constructor; [now apply encode_utf8_ascii|now apply IH]. }
  now rewrite (encode_utf8_join net_http.NUL [0%N] args args eq_refl Henc).
Qed.

Lemma cmdline_ascii_arguments_witness :
  run Reference.process (net_http.cmdline (Some 0%nat)) Reference.idle =
  mkOutcome (Ok (join [0%N] [literal "prog"; literal "-x"; literal "1"]))
            Reference.idle [sys_argv].
Proof.
  exact (cmdline_ascii_arguments Reference.process Reference.idle
           Reference.idle 0%nat [literal "prog"; literal "-x"; literal "1"]
           eq_refl eq_refl).
Defined.
